(** * create-umi: the project scaffolding pipeline

    A shallow embedding of [packages/create-umi/src/index.ts]: the
    environment probes ([detectMonorepoRoot], [getPnpmMajorVersion],
    [detectUserRegistry]), the resolution of the generation parameters, and
    the post-generation steps ([removeHusky], [moveNpmrc], [initGit], the
    dependency installation), sequenced by the default export ([main]).

    The program is asynchronous but strictly sequential: every [await] is
    resumed in issuing order.  It is embedded in a state-and-exception monad
    over a [world] that holds the file tree and the trace of what the process
    did to the outside (processes spawned, collaborators called, log lines).
    What the outside answers (process output, prompt answers, collaborators)
    is read from an [env]. *)

From Stdlib Require Import ZArith String Ascii List Decimal DecimalString DecimalNat.
From stdpp Require Import gmap strings list fin_maps.

Open Scope string_scope.
Open Scope list_scope.

(** ** JavaScript strings and numbers *)

Module Js.

(** A [string] holds the UTF-8 encoding of a JavaScript string, byte by
    byte.  The white space of ECMAScript ([WhiteSpace] and [LineTerminator],
    what [trim] strips and [parseInt] skips) is then one, two or three bytes
    long.  One byte: TAB, LF, VT, FF, CR and SP. *)
Definition isWhiteSpace (c : ascii) : bool :=
  let n := nat_of_ascii c in
  (Nat.leb 9 n && Nat.leb n 13) || Nat.eqb n 32.

(** Two bytes: U+00A0 (C2 A0). *)
Definition isWhiteSpace2 (c1 c2 : ascii) : bool :=
  Nat.eqb (nat_of_ascii c1) 194 && Nat.eqb (nat_of_ascii c2) 160.

(** Three bytes: U+1680 (E1 9A 80), U+2000 to U+200A (E2 80 80 to E2 80 8A),
    U+2028 and U+2029 (E2 80 A8, E2 80 A9), U+202F (E2 80 AF), U+205F
    (E2 81 9F), U+3000 (E3 80 80) and U+FEFF (EF BB BF). *)
Definition isWhiteSpace3 (c1 c2 c3 : ascii) : bool :=
  let a := nat_of_ascii c1 in
  let b := nat_of_ascii c2 in
  let c := nat_of_ascii c3 in
  (Nat.eqb a 225 && Nat.eqb b 154 && Nat.eqb c 128) ||
  (Nat.eqb a 226 && Nat.eqb b 128 &&
   ((Nat.leb 128 c && Nat.leb c 138) || Nat.eqb c 168 || Nat.eqb c 169 || Nat.eqb c 175)) ||
  (Nat.eqb a 226 && Nat.eqb b 129 && Nat.eqb c 159) ||
  (Nat.eqb a 227 && Nat.eqb b 128 && Nat.eqb c 128) ||
  (Nat.eqb a 239 && Nat.eqb b 187 && Nat.eqb c 191).

Fixpoint trimStart (s : string) : string :=
  match s with
  | EmptyString => EmptyString
  | String c1 r1 =>
      if isWhiteSpace c1 then trimStart r1
      else match r1 with
           | EmptyString => s
           | String c2 r2 =>
               if isWhiteSpace2 c1 c2 then trimStart r2
               else match r2 with
                    | EmptyString => s
                    | String c3 r3 =>
                        if isWhiteSpace3 c1 c2 c3 then trimStart r3 else s
                    end
           end
  end.

(** [s] is white space only. *)
Definition blank (s : string) : bool :=
  match trimStart s with
  | EmptyString => true
  | _ => false
  end.

(** The string up to the white space it ends with.  No white space starts
    with a continuation byte of UTF-8, so a blank rest starts at a
    character. *)
Fixpoint trimEnd (s : string) : string :=
  match s with
  | EmptyString => EmptyString
  | String c s' => if blank s then EmptyString else String c (trimEnd s')
  end.

(** [String.prototype.trim]. *)
Definition trim (s : string) : string := trimEnd (trimStart s).

(** [s.includes(sub)]: [sub] occurs in [s] at some position. *)
Fixpoint includes (s sub : string) : bool :=
  String.prefix sub s ||
  match s with
  | EmptyString => false
  | String _ s' => includes s' sub
  end.

(** [s.split(sep)] for a one-character separator; the result is never
    empty. *)
Fixpoint split (sep : ascii) (s : string) : list string :=
  match s with
  | EmptyString => [EmptyString]
  | String c s' =>
      if Ascii.eqb c sep then EmptyString :: split sep s'
      else match split sep s' with
           | piece :: pieces => String c piece :: pieces
           | [] => [String c EmptyString]
           end
  end.

(** Truthiness of a string: every string but the empty one. *)
Definition truthy (s : string) : bool :=
  match s with EmptyString => false | _ => true end.

(** The Number values the program meets: NaN, the integers that a double
    holds, and the infinities. *)
Inductive number : Type :=
| NaN
| Num (z : Z)
| Infinity (negative : bool).

Definition digitValue (c : ascii) : option Z :=
  let n := nat_of_ascii c in
  if Nat.leb 48 n && Nat.leb n 57 then Some (Z.of_nat (n - 48)) else None.

(** The longest prefix of decimal digits, read as an integer; [acc] is
    [None] as long as no digit has been read. *)
Fixpoint parseDigits (s : string) (acc : option Z) : option Z :=
  match s with
  | EmptyString => acc
  | String c s' =>
      match digitValue c with
      | Some d => parseDigits s' (Some (10 * default 0%Z acc + d)%Z)
      | None => acc
      end
  end.

(** The Number of a mathematical integer [z >= 0]: [z] itself up to
    [2^53]; above, the nearest integer with a 53-bit significand, ties to
    the even significand, and infinity from [2^1024] on. *)
Definition toNumber (negative : bool) (z : Z) : number :=
  let signed (v : Z) := if negative then (- v)%Z else v in
  if (z <=? 2 ^ 53)%Z then Num (signed z)
  else
    let e := (Z.log2 z - 52)%Z in
    let q := Z.shiftr z e in
    let r := (z - Z.shiftl q e)%Z in
    let half := Z.shiftl 1 (e - 1) in
    let q' := if (r <? half)%Z || ((r =? half)%Z && Z.even q) then q else (q + 1)%Z in
    let v := Z.shiftl q' e in
    if (1024 <=? Z.log2 v)%Z then Infinity negative else Num (signed v).

(** [parseInt(s, 10)]: leading white space is skipped, one sign is read,
    then the longest run of digits; NaN when there is no digit. *)
Definition parseInt10 (s : string) : number :=
  let s1 := trimStart s in
  let '(negative, s2) :=
    match s1 with
    | String "-" r => (true, r)
    | String "+" r => (false, r)
    | _ => (false, s1)
    end in
  match parseDigits s2 None with
  | Some v => toNumber negative v
  | None => NaN
  end.

(** [v === k] for [v : number | undefined] and an integer literal [k]. *)
Definition strictEq (v : option number) (k : Z) : bool :=
  match v with
  | Some (Num z) => Z.eqb z k
  | _ => false
  end.

End Js.

(** ** Paths and the file tree *)

(** An absolute, normalised POSIX path is the list of its segments from the
    root; [[]] is the root directory ["/"]. *)
Abbreviation path := (list string).

Module Path.

(** [path.dirname]: the parent directory; the root is its own parent. *)
Definition dirname (p : path) : path := removelast p.

Definition step (acc : path) (segment : string) : path :=
  if decide (segment = "" ∨ segment = ".") then acc
  else if decide (segment = "..") then removelast acc
  else acc ++ [segment].

(** [path.join(base, rel)] for an absolute [base]: the segments of [rel] are
    appended, ["."] and empty segments are dropped and [".."] steps up
    (staying at the root). *)
Definition join (base : path) (rel : string) : path :=
  fold_left step (Js.split "/" rel) base.

End Path.

Inductive node : Type :=
| File (content : string)
| Dir.

#[global] Instance node_eq_dec : EqDecision node.
Proof. solve_decision. Defined.

Abbreviation tree := (gmap path node).

(** ** Data model (lines 18-84) *)

Module ENpmClient.
Inductive t : Type := npm | cnpm | tnpm | yarn | pnpm.
End ENpmClient.

#[global] Instance ENpmClient_eq_dec : EqDecision ENpmClient.t.
Proof. solve_decision. Defined.

Module ETemplate.
Inductive t : Type := app | max | vueApp | plugin.
End ETemplate.

#[global] Instance ETemplate_eq_dec : EqDecision ETemplate.t.
Proof. solve_decision. Defined.

(** Modelled from the spec: the enum [ERegistry] of [./template] is not
    among the sources.  A registry is "resolved to one of: default public
    registry, regional mirror, or a detected custom registry". *)
Inductive registry : Type :=
| ERegistry_npm
| ERegistry_taobao
| customUrl (url : string).

Module IArgs.
(** [positional] is the field [_] of the parsed command line. *)
Record t : Type := mk {
  positional : list string;
  default : option bool;
  git : option bool;
  install : option bool;
  template : option string;
}.
End IArgs.

Module IContext.
Record t : Type := mk {
  projectRoot : path;
  inMonorepo : bool;
  target : path;
}.
End IContext.

Module IDefaultData.
(** [IDefaultData extends ITemplateParams]; the object literal handed to the
    generator (an [ITemplateParams]) has no [appTemplate]. *)
Record t : Type := mk {
  pluginName : option string;
  version : string;
  npmClient : ENpmClient.t;
  registry : registry;
  author : string;
  email : string;
  withHusky : bool;
  extraNpmrc : string;
  appTemplate : option ETemplate.t;
}.
End IDefaultData.

(** ** The world, the environment and the monad *)

Inductive error : Type :=
| ExecaError (file : string) (argv : list string)
| FsError (code : string) (p : path)
| CollaboratorError (who : string)
| JsError (message : string) (cause : error).

Inductive level : Type := info | warn | error_level.

(** What the process does to the outside, in order. *)
Inductive event : Type :=
| Spawn (file : string) (argv : list string) (cwd : option path)
| UnpackTemplate (template : string) (dest : path) (reg : registry)
| Generate (template : ETemplate.t) (target : path) (data : IDefaultData.t)
| InstallWithNpmClient (npmClient : ENpmClient.t) (cwd : path)
| Log (l : level) (message : string).

Record world : Type := mkWorld {
  files : tree;
  trace : list event;
}.

(** The answers of the outside.  For a process, a collaborator and a prompt
    [None] is a rejected promise (the process could not be started or exited
    with a non-zero status) or the cancel symbol. *)
Record env : Type := mkEnv {
  (** [require('../package').version] *)
  pkg_version : string;
  (** [getGitInfo()]: username and email *)
  gitInfo : string * string;
  (** a child process: file, arguments, working directory and the file tree
      it runs on; its standard output and the tree it leaves *)
  run_process : string → list string → option path → tree → option (string * tree);
  (** [installWithNpmClient({ npmClient, cwd })] *)
  install_deps : ENpmClient.t → path → tree → option tree;
  (** [unpackTemplate({ template, dest, registry })] *)
  unpack : string → path → registry → tree → option tree;
  (** [new BaseGenerator({ path, target, data }).run()] *)
  generate : ETemplate.t → path → IDefaultData.t → tree → option tree;
  (** [fsExtra.copyFile(src, dest)] on a file tree: the code of the error
      when the operating system refuses the copy (permissions, a read-only
      volume), [None] when it does not *)
  copy_refused : path → path → tree → option string;
  (** [fsExtra.remove(p)] on a file tree: when the operating system refuses
      the removal (permissions, an immutable or busy entry), the code of the
      error and the entries that were removed before it did; [None] when it
      does not *)
  remove_refused : path → tree → option (string * list path);
  (** the answers to the prompts *)
  answer_appTemplate : option ETemplate.t;
  answer_npmClient : option ENpmClient.t;
  answer_registry : list registry → option registry;
  answer_pluginName : string → option string;
}.

Inductive outcome (A : Type) : Type :=
| Return (a : A)
| Throw (e : error)
| Exit (code : Z).

Arguments Return {A} a.
Arguments Throw {A} e.
Arguments Exit {A} code.

Definition M (A : Type) : Type := world → outcome A * world.

Definition ret {A} (a : A) : M A := λ w, (Return a, w).

(** Sequencing: a thrown error and a process exit both end the run. *)
Definition bind {A B} (m : M A) (k : A → M B) : M B := λ w,
  match m w with
  | (Return a, w') => k a w'
  | (Throw e, w') => (Throw e, w')
  | (Exit c, w') => (Exit c, w')
  end.

Declare Scope prog_scope.
Delimit Scope prog_scope with prog.
Notation "x ← m ; k" := (bind m (λ x, k))
  (at level 20, m at level 100, k at level 200, only parsing) : prog_scope.
Notation "m ;; k" := (bind m (λ _, k))
  (at level 100, k at level 200, right associativity, only parsing) : prog_scope.
Open Scope prog_scope.

Definition throw {A} (e : error) : M A := λ w, (Throw e, w).

(** [process.exit(code)] *)
Definition process_exit {A} (code : Z) : M A := λ w, (Exit code, w).

(** [try { m } catch (e) { handler e }] *)
Definition try_catch {A} (m : M A) (handler : error → M A) : M A := λ w,
  match m w with
  | (Throw e, w') => handler e w'
  | r => r
  end.

(** Nothing to do: the branch that is not there. *)
Definition skip : M unit := ret ().

Definition emit (ev : event) : M unit := λ w,
  (Return (), {| files := files w; trace := trace w ++ [ev] |}).

Definition logger (l : level) (message : string) : M unit := emit (Log l message).

(** ** File system and process primitives *)

(** [existsSync(p)]: an entry of any kind at [p]; the root always exists. *)
Definition present (fs : tree) (p : path) : bool :=
  bool_decide (p = []) || bool_decide (is_Some (fs !! p)).

Definition isDirectory (fs : tree) (p : path) : bool :=
  bool_decide (p = []) || bool_decide (fs !! p = Some Dir).

Definition existsSync (p : path) : M bool := λ w, (Return (present (files w) p), w).

(** [fsExtra.copyFile(src, dest)]: rejects when the operating system refuses
    the copy; otherwise [src] must be a file and the directory of [dest] must
    exist, and an existing file at [dest] is overwritten. *)
Definition copyFile (e : env) (src dest : path) : M unit := λ w,
  match copy_refused e src dest (files w) with
  | Some code => (Throw (FsError code dest), w)
  | None =>
      match files w !! src with
      | Some (File content) =>
          if isDirectory (files w) dest then (Throw (FsError "EISDIR" dest), w)
          else if isDirectory (files w) (Path.dirname dest)
          then (Return (), {| files := <[dest := File content]> (files w); trace := trace w |})
          else (Throw (FsError "ENOENT" dest), w)
      | Some Dir => (Throw (FsError "EISDIR" src), w)
      | None => (Throw (FsError "ENOENT" src), w)
      end
  end.

(** The tree without [p] and what is below it. *)
Definition without (p : path) (fs : tree) : tree :=
  filter (λ entry, ¬ p `prefix_of` entry.1) fs.

(** [fsExtra.remove(p)]: [p] and everything below it; nothing happens when
    [p] does not exist.  When the operating system refuses the removal the
    promise rejects: entries below [p] may be gone by then, [p] itself is
    not. *)
Definition remove (e : env) (p : path) : M unit := λ w,
  match remove_refused e p (files w) with
  | Some (code, gone) =>
      (Throw (FsError code p),
       {| files := foldr without (files w) (filter (λ q, p `prefix_of` q ∧ p ≠ q) gone);
          trace := trace w |})
  | None => (Return (), {| files := without p (files w); trace := trace w |})
  end.

(** [execa.execa(file, argv, { cwd })]: resolves to the standard output and
    rejects when the process cannot be run or fails. *)
Definition execa (e : env) (file : string) (argv : list string) (cwd : option path)
  : M string := λ w,
  let w1 := {| files := files w; trace := trace w ++ [Spawn file argv cwd] |} in
  match run_process e file argv cwd (files w) with
  | Some (stdout, fs') => (Return stdout, {| files := fs'; trace := trace w1 |})
  | None => (Throw (ExecaError file argv), w1)
  end.

(** A collaborator that rewrites the file tree or fails. *)
Definition collaborator (ev : event) (who : string) (run : tree → option tree)
  : M unit := λ w,
  let w1 := {| files := files w; trace := trace w ++ [ev] |} in
  match run (files w) with
  | Some fs' => (Return (), {| files := fs'; trace := trace w1 |})
  | None => (Throw (CollaboratorError who), w1)
  end.

(** Modelled from the spec: [installWithNpmClient] of [@umijs/utils] is not
    among the sources; it "run[s] the standard install command for the
    selected package manager". *)
Definition installWithNpmClient (e : env) (npmClient : ENpmClient.t) (cwd : path)
  : M unit :=
  collaborator (InstallWithNpmClient npmClient cwd) "installWithNpmClient"
    (install_deps e npmClient cwd).

(** Modelled from the spec: [unpackTemplate] of [./template] is not among
    the sources; [unpack(templateRef, destination, registry) -> ok | error]. *)
Definition unpackTemplate (e : env) (template : string) (dest : path) (reg : registry)
  : M unit :=
  collaborator (UnpackTemplate template dest reg) "unpackTemplate"
    (unpack e template dest reg).

(** ** Environment probes *)

(** The directories from [rdir] up to the root, nearest first; [rdir] lists
    the segments of the starting directory innermost first. *)
Fixpoint walkUp (found : path → bool) (rdir : list string) : option path :=
  if found (reverse rdir) then Some (reverse rdir)
  else match rdir with
       | [] => None
       | _ :: up => walkUp found up
       end.

(** Modelled from the spec: [pkgUp.pkgUp] of [@umijs/utils] is not among the
    sources; it "walks upward from [cwd] to find the nearest ancestor
    directory containing a package manifest" and yields the manifest's
    path. *)
Definition pkgUp (fs : tree) (cwd : path) : option path :=
  (λ dir, Path.join dir "package.json")
    <$> walkUp (λ dir, present fs (Path.join dir "package.json")) (reverse cwd).

(** Modelled from the spec: [tryPaths] of [@umijs/utils] is not among the
    sources; the first of the paths that exists ("contains a
    workspace-manifest marker file (one of two recognized filenames)"). *)
Definition tryPaths (fs : tree) (paths : list path) : option path :=
  List.find (present fs) paths.

(** Lines 329-347. *)
Definition detectMonorepoRoot (fs : tree) (target : path) : option path :=
  match pkgUp fs (Path.dirname target) with
  | None => None
  | Some rootPkg =>
      let rootDir := Path.dirname rootPkg in
      match tryPaths fs [Path.join rootDir "lerna.json";
                         Path.join rootDir "pnpm-workspace.yaml"] with
      | Some _ => Some rootDir
      | None => None
      end
  end.

(** [parseInt(stdout.trim().split('.')[0], 10)] (line 387). *)
Definition majorOfStdout (stdout : string) : Js.number :=
  Js.parseInt10 (hd "" (Js.split "." (Js.trim stdout))).

(** Lines 384-391. *)
Definition getPnpmMajorVersion (e : env) : M Js.number :=
  try_catch
    (stdout ← execa e "pnpm" ["--version"] None;
     ret (majorOfStdout stdout))
    (λ cause, throw (JsError "Please install pnpm first" cause)).

Definition chinaRegistries : list string :=
  ["registry.npm.taobao.org"; "registry.npmmirror.com"; "r.cnpmjs.org";
   "registry.nlark.com"].

Definition npmRegistries : list string :=
  ["registry.npmjs.org"; "registry.npmjs.com"; "registry.yarnpkg.com"].

Definition isChinaRegistry (reg : string) : bool :=
  existsb (λ i, Js.includes reg i) chinaRegistries.

Definition isNpmRegistry (reg : string) : bool :=
  existsb (λ i, Js.includes reg i) npmRegistries.

(** Lines 393-420; [None] is [undefined]. *)
Definition detectUserRegistry (e : env) : M (option string) :=
  try_catch
    (stdout ← execa e "npm" ["config"; "get"; "registry"] None;
     let reg := Js.trim stdout in
     let hasCustomRegistry := negb (isChinaRegistry reg) && negb (isNpmRegistry reg) in
     ret (if hasCustomRegistry then Some reg else None))
    (λ _, ret None).

(** ** Post-generation steps *)

(** Lines 349-357. *)
Definition moveNpmrc (e : env) (opts : IContext.t) : M unit :=
  let sourceNpmrc := Path.join (IContext.target opts) "./.npmrc" in
  let targetNpmrc := Path.join (IContext.projectRoot opts) "./.npmrc" in
  targetExists ← existsSync targetNpmrc;
  (if negb targetExists then copyFile e sourceNpmrc targetNpmrc else skip);;
  remove e sourceNpmrc.

(** Lines 359-368. *)
Definition initGit (e : env) (opts : IContext.t) : M unit :=
  let projectRoot := IContext.projectRoot opts in
  isGit ← existsSync (Path.join projectRoot ".git");
  if isGit then skip
  else try_catch
         (execa e "git" ["init"] (Some projectRoot);; skip)
         (λ _, logger error_level "Initial the git repo failed").

(** Lines 370-375. *)
Definition removeHusky (e : env) (opts : IContext.t) : M unit :=
  let dir := Path.join (IContext.target opts) "./.husky" in
  dirExists ← existsSync dir;
  if dirExists then remove e dir else skip.

(** Lines 380-382. *)
Definition installWithPnpm8 (e : env) (cwd : path) : M unit :=
  execa e "pnpm" ["up"; "-L"] (Some cwd);; skip.

(** ** The default export (lines 86-327) *)

(** Lines 68-78; [version] is [pkg.version]. *)
Definition DEFAULT_DATA (e : env) : IDefaultData.t :=
  {| IDefaultData.pluginName := Some "umi-plugin-demo";
     IDefaultData.email := "i@domain.com";
     IDefaultData.author := "umijs";
     IDefaultData.version := pkg_version e;
     IDefaultData.npmClient := ENpmClient.pnpm;
     IDefaultData.registry := ERegistry_npm;
     IDefaultData.withHusky := false;
     IDefaultData.extraNpmrc := "";
     IDefaultData.appTemplate := Some ETemplate.app |}.

(** The variables the prompts assign (lines 92-99). *)
Record choices : Type := mkChoices {
  appTemplate : ETemplate.t;
  npmClient : ENpmClient.t;
  chosenRegistry : registry;
  pluginName : string;
}.

(** What lines 91-103 and 203-205 compute before the first prompt. *)
Record setup : Type := mkSetup {
  name : option string;
  author : string;
  email : string;
  target : path;
  customRegistry : option string;
  useDefaultData : bool;
  useExternalTemplate : bool;
}.

(** A [select] prompt: the answer, or [exitPrompt()] on the cancel symbol
    (lines 105-108). *)
Definition select {A} (answer : option A) : M A :=
  match answer with
  | Some a => ret a
  | None => process_exit 1
  end.

(** Lines 129-141. *)
Definition selectNpmClient (e : env) (c : choices) : M choices :=
  picked ← select (answer_npmClient e);
  ret {| appTemplate := appTemplate c; npmClient := picked;
          chosenRegistry := chosenRegistry c; pluginName := pluginName c |}.

(** The options of the registry prompt (lines 145-160): the custom registry
    is offered when the probe found a (non-empty) one. *)
Definition registryOptions (customRegistry : option string) : list registry :=
  [ERegistry_npm; ERegistry_taobao] ++
  match customRegistry with
  | Some url => if Js.truthy url then [customUrl url] else []
  | None => []
  end.

(** Lines 142-163. *)
Definition selectRegistry (e : env) (customRegistry : option string) (c : choices)
  : M choices :=
  picked ← select (answer_registry e (registryOptions customRegistry));
  ret {| appTemplate := appTemplate c; npmClient := npmClient c;
          chosenRegistry := picked; pluginName := pluginName c |}.

(** Lines 109-128. *)
Definition selectAppTemplate (e : env) (c : choices) : M choices :=
  picked ← select (answer_appTemplate e);
  ret {| appTemplate := picked; npmClient := npmClient c;
          chosenRegistry := chosenRegistry c; pluginName := pluginName c |}.

(** Lines 164-200. *)
Definition internalTemplatePrompts (e : env) (customRegistry : option string)
    (c : choices) : M choices :=
  c ← selectAppTemplate e c;
  c ← selectNpmClient e c;
  c ← selectRegistry e customRegistry c;
  if decide (appTemplate c = ETemplate.plugin) then
    picked ← select (answer_pluginName e (pluginName c));
    ret {| appTemplate := appTemplate c; npmClient := npmClient c;
            chosenRegistry := chosenRegistry c; pluginName := picked |}
  else ret c.

(** Lines 91-103 and 203-205. *)
Definition prepare (e : env) (cwd : path) (args : IArgs.t) : M setup :=
  let name := head (IArgs.positional args) in
  let '(username, email) := gitInfo e in
  let author :=
    if Js.truthy email && Js.truthy username
    then username +:+ " <" +:+ email +:+ ">" else "" in
  let target :=
    match name with
    | Some n => if Js.truthy n then Path.join cwd n else cwd
    | None => cwd
    end in
  customRegistry ← detectUserRegistry e;
  ret {| name := name; author := author; email := email; target := target;
          customRegistry := customRegistry;
          useDefaultData := bool_decide (IArgs.default args = Some true);
          useExternalTemplate :=
            match IArgs.template args with
            | Some t => Js.truthy t
            | None => false
            end |}.

(** The initial values of the prompted variables (lines 92-99). *)
Definition initialChoices (s : setup) (defaultData : IDefaultData.t) : choices :=
  {| appTemplate := default ETemplate.app (IDefaultData.appTemplate defaultData);
     npmClient := ENpmClient.pnpm;
     chosenRegistry := ERegistry_npm;
     pluginName :=
       "umi-plugin-" +:+
       match name s with
       | Some n => if Js.truthy n then n else "demo"
       | None => "demo"
       end |}.

(** The [switch] of lines 207-229. *)
Definition choose (e : env) (args : IArgs.t) (s : setup) (c : choices) : M choices :=
  if useExternalTemplate s then
    c ← selectNpmClient e c;
    c ← selectRegistry e (customRegistry s) c;
    unpackTemplate e (default "" (IArgs.template args)) (target s) (chosenRegistry c);;
    ret c
  else if negb (useDefaultData s) then internalTemplatePrompts e (customRegistry s) c
  else ret c.

(** Line 239. *)
Definition shouldInitGit (args : IArgs.t) : bool :=
  negb (bool_decide (IArgs.git args = Some false)).

(** Line 241. *)
Definition withHusky (args : IArgs.t) (monorepoRoot : option path) : bool :=
  shouldInitGit args && negb (bool_decide (is_Some monorepoRoot)).

(** Lines 234-236 and 280-284. *)
Definition context (monorepoRoot : option path) (target : path) : IContext.t :=
  {| IContext.inMonorepo := bool_decide (is_Some monorepoRoot);
     IContext.target := target;
     IContext.projectRoot := default target monorepoRoot |}.

(** Lines 246-248: the probe runs for pnpm only. *)
Definition pnpmMajorVersion (e : env) (c : choices) : M (option Js.number) :=
  if decide (npmClient c = ENpmClient.pnpm)
  then major ← getPnpmMajorVersion e; ret (Some major)
  else ret None.

(** Lines 244 and 249-253. *)
Definition pnpmExtraNpmrc (major : option Js.number) : string :=
  if Js.strictEq major 7 then "strict-peer-dependencies=false" else "".

(** The [data] of the generator (lines 261-272). *)
Definition templateData (e : env) (args : IArgs.t) (defaultData : IDefaultData.t)
    (s : setup) (c : choices) (monorepoRoot : option path)
    (major : option Js.number) : IDefaultData.t :=
  if useDefaultData s then defaultData
  else
    let version := pkg_version e in
    {| IDefaultData.version :=
         if Js.includes version "-canary." then version else "^" +:+ version;
       IDefaultData.npmClient := npmClient c;
       IDefaultData.registry := chosenRegistry c;
       IDefaultData.author := author s;
       IDefaultData.email := email s;
       IDefaultData.withHusky := withHusky args monorepoRoot;
       IDefaultData.extraNpmrc :=
         if decide (npmClient c = ENpmClient.pnpm) then pnpmExtraNpmrc major else "";
       IDefaultData.pluginName := Some (pluginName c);
       IDefaultData.appTemplate := None |}.

(** Lines 256-275. *)
Definition injectInternalTemplateFiles (e : env) (c : choices) (target : path)
    (data : IDefaultData.t) : M unit :=
  collaborator (Generate (appTemplate c) target data) "BaseGenerator"
    (generate e (appTemplate c) target data).

(** Lines 302-326. *)
Definition installDeps (e : env) (args : IArgs.t) (s : setup) (c : choices)
    (major : option Js.number) : M unit :=
  let isPnpm8 := Js.strictEq major 8 in
  if negb (useDefaultData s) && negb (bool_decide (IArgs.install args = Some false)) then
    if isPnpm8 then installWithPnpm8 e (target s)
    else installWithNpmClient e (npmClient c) (target s)
  else
    logger info "Skip install deps";;
    if isPnpm8 then
      logger warn "You current using pnpm v8, it will install minimal version of dependencies";;
      logger warn "Recommended that you run pnpm up -L to install latest version of dependencies"
    else skip.

(** Lines 286-300: the steps on the generated tree. *)
Definition reconcile (e : env) (args : IArgs.t) (ctx : IContext.t) (husky : bool)
  : M unit :=
  (if negb husky then removeHusky e ctx else skip);;
  (if IContext.inMonorepo ctx then moveNpmrc e ctx else skip);;
  (if shouldInitGit args then initGit e ctx else logger info "Skip Git init").

(** Lines 231-327, after the prompts. *)
Definition provision (e : env) (args : IArgs.t) (defaultData : IDefaultData.t)
    (s : setup) (c : choices) : M unit :=
  monorepoRoot ← (λ w, (Return (detectMonorepoRoot (files w) (target s)), w));
  major ← pnpmMajorVersion e c;
  (if negb (useExternalTemplate s)
   then injectInternalTemplateFiles e c (target s)
          (templateData e args defaultData s c monorepoRoot major)
   else skip);;
  reconcile e args (context monorepoRoot (target s)) (withHusky args monorepoRoot);;
  installDeps e args s c major.

(** Lines 91-229: everything up to the end of the [switch]. *)
Definition collect (e : env) (cwd : path) (args : IArgs.t)
    (defaultData : IDefaultData.t) : M (setup * choices) :=
  s ← prepare e cwd args;
  c ← choose e args s (initialChoices s defaultData);
  ret (s, c).

(** The default export; [defaultData] defaults to [DEFAULT_DATA]. *)
Definition main (e : env) (cwd : path) (args : IArgs.t)
    (defaultData : option IDefaultData.t) : M unit :=
  let defaultData := default (DEFAULT_DATA e) defaultData in
  collected ← collect e cwd args defaultData;
  provision e args defaultData collected.1 collected.2.

(** ** Vocabulary of the properties *)

(** The decimal numeral of a natural number. *)
Definition decimal (n : nat) : string := NilEmpty.string_of_uint (Nat.to_uint n).

Fixpoint allDigits (s : string) : bool :=
  match s with
  | EmptyString => true
  | String c s' => bool_decide (is_Some (Js.digitValue c)) && allDigits s'
  end.

(** [sub] occurs somewhere in [s]. *)
Definition Substring (sub s : string) : Prop :=
  ∃ before after, s = before +:+ sub +:+ after.

(** The nearest directory that satisfies [found], from [start] upward. *)
Definition nearest (found : path → bool) (start d : path) : Prop :=
  d `prefix_of` start ∧ found d = true ∧
  ∀ d', d `prefix_of` d' → d' `prefix_of` start → found d' = true → d' = d.

(** [dir] holds a package manifest. *)
Definition manifestAt (fs : tree) (dir : path) : Prop :=
  is_Some (fs !! (dir ++ ["package.json"])).

(** [dir] is the nearest directory with a package manifest on the way from
    [start] up to the root: an ancestor of [start] or [start] itself, with
    no manifest in any directory between the two. *)
Definition NearestManifestDir (fs : tree) (start dir : path) : Prop :=
  dir `prefix_of` start ∧ manifestAt fs dir ∧
  ∀ d, dir `prefix_of` d → d `prefix_of` start → manifestAt fs d → d = dir.

(** [dir] holds one of the two workspace markers. *)
Definition hasWorkspaceMarker (fs : tree) (dir : path) : Prop :=
  is_Some (fs !! (dir ++ ["lerna.json"])) ∨
  is_Some (fs !! (dir ++ ["pnpm-workspace.yaml"])).

(** The tree of the example: [/a/package.json], [/a/pnpm-workspace.yaml]
    and the directories down to [/a/pkg/b]. *)
Definition exampleWorkspace : tree :=
  list_to_map
    [(["a"], Dir); (["a"; "package.json"], File "{}");
     (["a"; "pnpm-workspace.yaml"], File "packages: [pkg/*]");
     (["a"; "pkg"], Dir); (["a"; "pkg"; "b"], Dir)].

(** The same tree without the marker. *)
Definition exampleSinglePackage : tree :=
  delete ["a"; "pnpm-workspace.yaml"] exampleWorkspace.

(** [a] is an ancestor directory of [p], and not [p] itself. *)
Definition strictAncestor (a p : path) : Prop := a `prefix_of` p ∧ a ≠ p.

(** A workspace whose root is the root of the file system:
    [/package.json] and [/lerna.json]. *)
Definition rootWorkspace : tree :=
  list_to_map [(["package.json"], File "{}"); (["lerna.json"], File "{}")].

(** The events a run adds to the trace of the world it starts in. *)
Definition emitted {A} (m : M A) (w : world) : list event :=
  drop (length (trace w)) (trace (m w).2).

(** Every event that [m] adds to the trace satisfies [P]; the trace is
    only ever extended. *)
Definition emits {A} (P : event → Prop) (m : M A) : Prop :=
  ∀ w, ∃ evs, trace (m w).2 = trace w ++ evs ∧ Forall P evs.

(** The events that install dependencies: the install command of the
    selected package manager and [pnpm up -L]. *)
Definition isInstall (ev : event) : Prop :=
  match ev with
  | InstallWithNpmClient _ _ => True
  | Spawn file argv _ => file = "pnpm" ∧ argv = ["up"; "-L"]
  | _ => False
  end.


(** [a] is a value that [m] can return. *)
Definition returns {A} (m : M A) (a : A) : Prop :=
  ∃ w w', m w = (Return a, w').

(** An environment for the examples: [pnpm --version] prints [pnpmVersion]
    (or cannot be run), the registry is the public one, [git init] creates
    [.git], the generator writes [.npmrc] and [.husky] into the target, an
    external template unpacks to a [package.json] only, and the file system
    refuses nothing. *)
Definition exampleEnv (pnpmVersion : option string) : env :=
  {| pkg_version := "4.0.0";
     gitInfo := ("umi", "umi@example.com");
     run_process := λ file argv cwd fs,
       match file, argv, cwd with
       | "pnpm", ["--version"], _ => (λ stdout, (stdout, fs)) <$> pnpmVersion
       | "pnpm", _, _ => Some ("", fs)
       | "npm", _, _ => Some ("https://registry.npmjs.org/", fs)
       | "git", _, Some dir => Some ("", <[dir ++ [".git"] := Dir]> fs)
       | _, _, _ => None
       end;
     install_deps := λ _ _ fs, Some fs;
     unpack := λ _ dest _ fs,
       Some (<[dest ++ ["package.json"] := File "{}"]> (<[dest := Dir]> fs));
     generate := λ _ target _ fs,
       Some (<[target ++ [".npmrc"] := File "registry=https://registry.npmjs.com/"]>
               (<[target ++ [".husky"] := Dir]> (<[target := Dir]> fs)));
     copy_refused := λ _ _ _, None;
     remove_refused := λ _ _, None;
     answer_appTemplate := Some ETemplate.app;
     answer_npmClient := Some ENpmClient.pnpm;
     answer_registry := λ _, Some ERegistry_npm;
     answer_pluginName := λ placeholder, Some placeholder |}.

(** [create-umi b], [create-umi --default] and
    [create-umi b --template some-template]. *)
Definition plainArgs : IArgs.t := IArgs.mk ["b"] None None None None.
Definition defaultArgs : IArgs.t := IArgs.mk [] (Some true) None None None.
Definition templateArgs : IArgs.t := IArgs.mk ["b"] None None None (Some "some-template").

Definition emptyWorld : world := {| files := ∅; trace := [] |}.



(** ** Vocabulary of the further properties *)

(** What [provision] does after the probe of pnpm (lines 256-326). *)
Definition afterProbe (e : env) (args : IArgs.t) (defaultData : IDefaultData.t)
    (s : setup) (c : choices) (monorepoRoot : option path)
    (major : option Js.number) : M unit :=
  (if negb (useExternalTemplate s)
   then injectInternalTemplateFiles e c (target s)
          (templateData e args defaultData s c monorepoRoot major)
   else skip);;
  reconcile e args (context monorepoRoot (target s)) (withHusky args monorepoRoot);;
  installDeps e args s c major.

(** The condition of line 304. *)
Definition installs (args : IArgs.t) (s : setup) : bool :=
  negb (useDefaultData s) && negb (bool_decide (IArgs.install args = Some false)).

(** The events before the generation: the two probes and the unpacking of
    an external template. *)
Definition isSetupEvent (ev : event) : Prop :=
  match ev with
  | Spawn file argv cwd =>
      cwd = None ∧
      ((file = "npm" ∧ argv = ["config"; "get"; "registry"]) ∨
       (file = "pnpm" ∧ argv = ["--version"]))
  | UnpackTemplate _ _ _ => True
  | _ => False
  end.

Definition isGenerate (ev : event) : Prop :=
  match ev with
  | Generate _ _ _ => True
  | _ => False
  end.

(** The events of the steps on the generated tree. *)
Definition isReconcileEvent (ev : event) : Prop :=
  match ev with
  | Spawn file argv (Some _) => file = "git" ∧ argv = ["init"]
  | Log l message =>
      (l = error_level ∧ message = "Initial the git repo failed") ∨
      (l = info ∧ message = "Skip Git init")
  | _ => False
  end.

(** The events of the installation block: an installation, the skip
    notice, the advisory. *)
Definition isInstallStage (ev : event) : Prop :=
  match ev with
  | InstallWithNpmClient _ _ => True
  | Spawn file argv (Some _) => file = "pnpm" ∧ argv = ["up"; "-L"]
  | Log l message => (l = info ∧ message = "Skip install deps") ∨ l = warn
  | _ => False
  end.

(** The selected package manager is pnpm and the probe, run on the files
    of [w1], says 8. *)
Definition detectedPnpm8 (e : env) (c : choices) (w1 : world) : Prop :=
  npmClient c = ENpmClient.pnpm ∧
  ∃ stdout fs',
    run_process e "pnpm" ["--version"] None (files w1) = Some (stdout, fs') ∧
    majorOfStdout stdout = Js.Num 8.

(** [m] never ends the process. *)
Definition neverExits {A} (m : M A) : Prop :=
  ∀ w code w', m w ≠ (Exit code, w').

(** Two environments that differ in the answers to the prompts at most. *)
Definition sameButAnswers (e e' : env) : Prop :=
  pkg_version e = pkg_version e' ∧ gitInfo e = gitInfo e' ∧
  run_process e = run_process e' ∧ install_deps e = install_deps e' ∧
  unpack e = unpack e' ∧ generate e = generate e' ∧
  copy_refused e = copy_refused e' ∧ remove_refused e = remove_refused e'.

(** A name that is one path segment: not empty, not [.] or [..], and
    without a slash. *)
Definition plainName (n : string) : Prop :=
  n ≠ "" ∧ n ≠ "." ∧ n ≠ ".." ∧ ¬ Substring "/" n.

(** The example environment with pnpm 9, except that both collaborators
    fail. *)
Definition brokenEnv : env :=
  let base := exampleEnv (Some "9.1.0") in
  {| pkg_version := pkg_version base; gitInfo := gitInfo base;
     run_process := run_process base; install_deps := install_deps base;
     unpack := λ _ _ _ _, None;
     generate := λ _ _ _ _, None;
     copy_refused := copy_refused base;
     remove_refused := remove_refused base;
     answer_appTemplate := answer_appTemplate base;
     answer_npmClient := answer_npmClient base;
     answer_registry := answer_registry base;
     answer_pluginName := answer_pluginName base |}.

(** The example environment with pnpm 9, except that the prompt for the
    package manager is cancelled. *)
Definition cancellingEnv : env :=
  let base := exampleEnv (Some "9.1.0") in
  {| pkg_version := pkg_version base; gitInfo := gitInfo base;
     run_process := run_process base; install_deps := install_deps base;
     unpack := unpack base; generate := generate base;
     copy_refused := copy_refused base;
     remove_refused := remove_refused base;
     answer_appTemplate := answer_appTemplate base;
     answer_npmClient := None;
     answer_registry := answer_registry base;
     answer_pluginName := answer_pluginName base |}.

(** The example environment with pnpm 9, on a file system that refuses
    every removal. *)
Definition lockedEnv : env :=
  let base := exampleEnv (Some "9.1.0") in
  {| pkg_version := pkg_version base; gitInfo := gitInfo base;
     run_process := run_process base; install_deps := install_deps base;
     unpack := unpack base; generate := generate base;
     copy_refused := copy_refused base;
     remove_refused := λ _ _, Some ("EPERM", []);
     answer_appTemplate := answer_appTemplate base;
     answer_npmClient := answer_npmClient base;
     answer_registry := answer_registry base;
     answer_pluginName := answer_pluginName base |}.

(** * Properties *)

(** ** The model on small inputs *)

Example major_of_trailing_newline : majorOfStdout "8.6.12
" = Js.Num 8.
Proof. reflexivity. Qed.

Example major_of_garbage : majorOfStdout "command not found" = Js.NaN.
Proof. reflexivity. Qed.

(** A no-break space (U+00A0) and a byte order mark (U+FEFF) around the
    version are white space as well. *)
Example major_of_unicode_space :
  majorOfStdout (String "194" (String "160" "7.30.0" +:+ String "239" (String "187" (String "191" ""))))
  = Js.Num 7.
Proof. reflexivity. Qed.

Example split_keeps_empty_pieces : Js.split "." "7.0." = ["7"; "0"; ""].
Proof. reflexivity. Qed.

Example join_normalises : Path.join ["a"; "b"] "../c/./d/" = ["a"; "c"; "d"].
Proof. reflexivity. Qed.

Example dirname_of_root : Path.dirname [] = [].
Proof. reflexivity. Qed.

Example mirror_is_not_custom :
  (detectUserRegistry (exampleEnv None) emptyWorld).1 = Return None.
Proof. reflexivity. Qed.

Example plain_run_in_workspace :
  emitted (main (exampleEnv (Some "9.1.0")) ["a"; "pkg"] plainArgs None)
    {| files := exampleWorkspace; trace := [] |}
  = [Spawn "npm" ["config"; "get"; "registry"] None;
     Spawn "pnpm" ["--version"] None;
     Generate ETemplate.app ["a"; "pkg"; "b"]
       {| IDefaultData.pluginName := Some "umi-plugin-b";
          IDefaultData.version := "^4.0.0";
          IDefaultData.npmClient := ENpmClient.pnpm;
          IDefaultData.registry := ERegistry_npm;
          IDefaultData.author := "umi <umi@example.com>";
          IDefaultData.email := "umi@example.com";
          IDefaultData.withHusky := false;
          IDefaultData.extraNpmrc := "";
          IDefaultData.appTemplate := None |};
     Spawn "git" ["init"] (Some ["a"]);
     InstallWithNpmClient ENpmClient.pnpm ["a"; "pkg"; "b"]].
Proof. by vm_compute. Qed.

(** In the example workspace the hooks are not kept; when the removal of
    the generated [.husky] is refused, the error ends the run right after
    the generation. *)
Example refused_removal_ends_run :
  let result :=
    main lockedEnv ["a"; "pkg"] plainArgs None {| files := exampleWorkspace; trace := [] |} in
  result.1 = Throw (FsError "EPERM" ["a"; "pkg"; "b"; ".husky"]) ∧
  length (trace result.2) = 3 ∧
  match last (trace result.2) with
  | Some (Generate _ target _) => target = ["a"; "pkg"; "b"]
  | _ => False
  end.
Proof. cbv zeta. split_and!; by vm_compute. Qed.

(** ** The major version read from [pnpm --version] *)

Section MajorVersion.

Lemma digit_char (c : ascii) :
  is_Some (Js.digitValue c) →
  Js.isWhiteSpace c = false ∧ Ascii.eqb c "." = false ∧
  Ascii.eqb c "-" = false ∧ Ascii.eqb c "+" = false.
Proof.
  destruct c as [[] [] [] [] [] [] [] []]; vm_compute; intros [v Hv];
    first [discriminate Hv | auto].
Qed.

(** A digit and the dot start no white space, of any length. *)
Lemma plain_char (c : ascii) :
  is_Some (Js.digitValue c) ∨ c = "."%char →
  Js.isWhiteSpace c = false ∧
  (∀ c2, Js.isWhiteSpace2 c c2 = false) ∧
  (∀ c2 c3, Js.isWhiteSpace3 c c2 c3 = false).
Proof.
  intros [Hc| ->]; [|by split_and!].
  revert Hc. destruct c as [[] [] [] [] [] [] [] []]; vm_compute; intros [v Hv];
    first [discriminate Hv | by split_and!].
Qed.

Lemma trimStart_plain (c : ascii) (s : string) :
  is_Some (Js.digitValue c) ∨ c = "."%char →
  Js.trimStart (String c s) = String c s.
Proof.
  intros Hc. destruct (plain_char c Hc) as (H1 & H2 & H3).
  cbn [Js.trimStart]. rewrite H1.
  destruct s as [|c2 [|c3 s]]; by rewrite ?H2, ?H3.
Qed.

Lemma trimEnd_plain (c : ascii) (s : string) :
  is_Some (Js.digitValue c) ∨ c = "."%char →
  Js.trimEnd (String c s) = String c (Js.trimEnd s).
Proof.
  intros Hc. cbn [Js.trimEnd]. unfold Js.blank. by rewrite trimStart_plain.
Qed.

Lemma split_hd_cons (sep c : ascii) (s : string) :
  Ascii.eqb c sep = false →
  hd "" (Js.split sep (String c s)) = String c (hd "" (Js.split sep s)).
Proof.
  intros Hc. simpl. rewrite Hc. now destruct (Js.split sep s).
Qed.

Lemma append_String (c : ascii) (s t : string) :
  String c s +:+ t = String c (s +:+ t).
Proof. reflexivity. Qed.

Lemma trim_digits (ds rest : string) :
  allDigits ds = true → ds ≠ "" →
  Js.trim (ds +:+ String "." rest) = ds +:+ String "." (Js.trimEnd rest).
Proof.
  intros Hds Hne. unfold Js.trim.
  assert (Hstart : Js.trimStart (ds +:+ String "." rest) = ds +:+ String "." rest).
  { destruct ds as [|c ds]; [done|]. simpl in Hds.
    apply andb_prop in Hds as [Hc _]. apply bool_decide_eq_true in Hc.
    rewrite append_String. apply trimStart_plain. by left. }
  rewrite Hstart. clear Hstart Hne.
  induction ds as [|c ds IH]; rewrite ?append_String.
  - apply trimEnd_plain. by right.
  - simpl in Hds. apply andb_prop in Hds as [Hc Hds].
    apply bool_decide_eq_true in Hc.
    rewrite trimEnd_plain by by left. now rewrite IH.
Qed.

Lemma split_digits (ds rest : string) :
  allDigits ds = true → hd "" (Js.split "." (ds +:+ String "." rest)) = ds.
Proof.
  induction ds as [|c ds IH]; intros Hds.
  - reflexivity.
  - simpl in Hds. apply andb_prop in Hds as [Hc Hds].
    apply bool_decide_eq_true in Hc. apply digit_char in Hc as (_ & Hc & _).
    rewrite append_String, split_hd_cons by exact Hc. now rewrite IH.
Qed.

(** On an output that starts with digits and a dot, the probe parses the
    digits. *)
Lemma majorOfStdout_digits (ds rest : string) :
  allDigits ds = true → ds ≠ "" →
  majorOfStdout (ds +:+ String "." rest) = Js.parseInt10 ds.
Proof.
  intros Hds Hne. unfold majorOfStdout.
  now rewrite trim_digits, split_digits.
Qed.

Lemma allDigits_uint (d : uint) : allDigits (NilEmpty.string_of_uint d) = true.
Proof. induction d; simpl; auto. Qed.

Lemma parseDigits_uint (d : uint) (a : nat) :
  Js.parseDigits (NilEmpty.string_of_uint d) (Some (Z.of_nat a))
  = Some (Z.of_nat (Nat.of_uint_acc d a)).
Proof.
  revert a.
  induction d as [|d IH|d IH|d IH|d IH|d IH|d IH|d IH|d IH|d IH|d IH]; intros a;
    [reflexivity|..];
    cbn [NilEmpty.string_of_uint Js.parseDigits Nat.of_uint_acc];
    match goal with
    | |- context [Js.digitValue ?c] =>
        let v := eval vm_compute in (Js.digitValue c) in
        change (Js.digitValue c) with v
    end;
    cbn [default]; rewrite <- IH; do 2 f_equal;
    rewrite Nat.tail_mul_spec; unfold id; lia.
Qed.

Lemma parseInt10_uint (d : uint) :
  d ≠ Nil → (Z.of_nat (Nat.of_uint d) ≤ 2 ^ 53)%Z →
  Js.parseInt10 (NilEmpty.string_of_uint d) = Js.Num (Z.of_nat (Nat.of_uint d)).
Proof.
  intros Hd Hsafe.
  assert (Hparse : Js.parseInt10 (NilEmpty.string_of_uint d) =
                   match Js.parseDigits (NilEmpty.string_of_uint d) (Some (Z.of_nat 0)) with
                   | Some v => Js.toNumber false v
                   | None => Js.NaN
                   end)
    by (destruct d; [done|..]; cbn [NilEmpty.string_of_uint]; unfold Js.parseInt10;
        rewrite trimStart_plain by (left; vm_compute; eauto); reflexivity).
  rewrite Hparse, parseDigits_uint. fold (Nat.of_uint d). unfold Js.toNumber.
  by rewrite (proj2 (Z.leb_le _ _) Hsafe).
Qed.

Lemma to_uint_nonnil (n : nat) : Nat.to_uint n ≠ Nil.
Proof.
  intros H. pose proof (DecimalNat.Unsigned.to_of (Nat.to_uint n)) as Hn.
  rewrite DecimalNat.Unsigned.of_to, H in Hn. discriminate Hn.
Qed.

End MajorVersion.

(** C8, as the claim states it, fails above [2^53]: the Number that
    [parseInt] returns for [2^53 + 1] is [2^53]. *)
Lemma majorOfStdout_above_safe_integers :
  majorOfStdout "9007199254740993.0.0" = Js.Num 9007199254740992 ∧
  majorOfStdout "9007199254740993.0.0" ≠ Js.Num 9007199254740993.
Proof. split; [by vm_compute | by vm_compute]. Qed.

(** C8 (amended): on every output of the form [n.x.y...], where [n] is
    written in decimal, is at most [2^53] and is followed by a dot, the
    parsing of the pnpm version probe yields the integer [n]. *)
Theorem majorOfStdout_decimal (n : nat) (rest : string) :
  (Z.of_nat n ≤ 2 ^ 53)%Z →
  majorOfStdout (decimal n +:+ "." +:+ rest) = Js.Num (Z.of_nat n).
Proof.
  intros Hsafe. unfold decimal.
  change ("." +:+ rest) with (String "." rest).
  rewrite majorOfStdout_digits.
  - rewrite parseInt10_uint.
    + by rewrite DecimalNat.Unsigned.of_to.
    + apply to_uint_nonnil.
    + by rewrite DecimalNat.Unsigned.of_to.
  - apply allDigits_uint.
  - pose proof (to_uint_nonnil n) as Hn. by destruct (Nat.to_uint n).
Qed.

(** The output [7.33.6] of pnpm 7. *)
Lemma majorOfStdout_decimal_example :
  (Z.of_nat 7 ≤ 2 ^ 53)%Z ∧ majorOfStdout "7.33.6" = Js.Num 7.
Proof.
  assert (Hsafe : (Z.of_nat 7 ≤ 2 ^ 53)%Z) by by vm_compute.
  split; [exact Hsafe|]. exact (majorOfStdout_decimal 7 "33.6" Hsafe).
Defined.

(** ** The registry probe *)

Section Registry.

Lemma prefix_spec (sub s : string) :
  String.prefix sub s = true ↔ ∃ after, s = sub +:+ after.
Proof.
  revert s. induction sub as [|c sub IH]; intros [|c' s]; simpl.
  - split; [intros _; now exists "" | done].
  - split; [intros _; now exists (String c' s) | done].
  - split; [done | intros [after H]; discriminate H].
  - destruct (ascii_dec c c') as [->|Hne].
    + rewrite IH. split; intros [after H]; exists after.
      * now rewrite H.
      * now injection H.
    + split; [done | intros [after H]; injection H; congruence].
Qed.

Lemma includes_spec (s sub : string) :
  Js.includes s sub = true ↔ Substring sub s.
Proof.
  induction s as [|c s IH]; cbn [Js.includes]; rewrite orb_true_iff, prefix_spec.
  - split.
    + intros [[after H]|H]; [|done]. now exists "", after.
    + intros ([|c before] & after & H); [left; now exists after | discriminate H].
  - rewrite IH. split.
    + intros [[after H]|(before & after & H)].
      * now exists "", after.
      * exists (String c before), after. now rewrite H.
    + intros ([|c' before] & after & H).
      * left. now exists after.
      * right. injection H as _ H. now exists before, after.
Qed.

Lemma some_includes (reg : string) (hosts : list string) :
  existsb (λ i, Js.includes reg i) hosts = false ↔
  ∀ host, host ∈ hosts → ¬ Substring host reg.
Proof.
  rewrite <- not_true_iff_false, existsb_exists. split.
  - intros Hnone host Hin Hsub. apply Hnone. exists host.
    split; [now apply list_elem_of_In | now apply includes_spec].
  - intros Hnone (host & Hin & Hinc). apply (Hnone host).
    + now apply list_elem_of_In.
    + now apply includes_spec.
Qed.

End Registry.

(** C7: the registry probe never fails.  It yields the configured registry
    URL (the trimmed output of [npm config get registry]) exactly when the
    URL contains none of the hosts of the default-public list and none of
    the hosts of the regional-mirror list, and it yields nothing when the
    command cannot be executed. *)
Theorem detectUserRegistry_custom (e : env) (w : world) :
  ∃ found w',
    detectUserRegistry e w = (Return found, w') ∧
    (∀ url, found = Some url ↔
       ∃ stdout fs',
         run_process e "npm" ["config"; "get"; "registry"] None (files w)
           = Some (stdout, fs') ∧
         url = Js.trim stdout ∧
         (∀ host,
            host ∈ ["registry.npmjs.org"; "registry.npmjs.com"; "registry.yarnpkg.com"] →
            ¬ Substring host url) ∧
         (∀ host,
            host ∈ ["registry.npm.taobao.org"; "registry.npmmirror.com"; "r.cnpmjs.org";
                    "registry.nlark.com"] →
            ¬ Substring host url)) ∧
    (run_process e "npm" ["config"; "get"; "registry"] None (files w) = None →
     found = None).
Proof.
  unfold detectUserRegistry, try_catch, bind, execa, ret.
  destruct (run_process e "npm" ["config"; "get"; "registry"] None (files w))
    as [[stdout fs']|]; simpl.
  - destruct (isChinaRegistry (Js.trim stdout)) eqn:Hchina;
      destruct (isNpmRegistry (Js.trim stdout)) eqn:Hnpm; simpl;
      eexists _, _; (split; [reflexivity|]); (split; [|done]); intros url;
      unfold isChinaRegistry, isNpmRegistry, chinaRegistries, npmRegistries in *.
    1-3: split; [done|]; intros (out & fs'' & [= <- <-] & -> & Hn & Hc);
      apply some_includes in Hn; apply some_includes in Hc; congruence.
    split.
    + intros [= <-]. exists stdout, fs'.
      repeat split; [now apply some_includes..].
    + intros (out & fs'' & [= <- <-] & -> & _). reflexivity.
  - eexists _, _. split; [reflexivity|]. split; [|done].
    intros url. split; [done|]. intros (out & fs'' & H & _). discriminate H.
Qed.

(** ** The workspace probe *)

Section Workspace.

Lemma join_package_json (dir : path) :
  Path.join dir "package.json" = dir ++ ["package.json"].
Proof. reflexivity. Qed.

Lemma join_lerna_json (dir : path) : Path.join dir "lerna.json" = dir ++ ["lerna.json"].
Proof. reflexivity. Qed.

Lemma join_pnpm_workspace (dir : path) :
  Path.join dir "pnpm-workspace.yaml" = dir ++ ["pnpm-workspace.yaml"].
Proof. reflexivity. Qed.

Lemma dirname_snoc (dir : path) (segment : string) :
  Path.dirname (dir ++ [segment]) = dir.
Proof. apply removelast_last. Qed.

Lemma dirname_prefix (p : path) : Path.dirname p `prefix_of` p.
Proof.
  destruct p as [|x p] using rev_ind; [done|].
  rewrite dirname_snoc. by apply prefix_app_r.
Qed.

Lemma present_snoc (fs : tree) (dir : path) (segment : string) :
  present fs (dir ++ [segment]) = true ↔ is_Some (fs !! (dir ++ [segment])).
Proof.
  unfold present. rewrite orb_true_iff, !bool_decide_eq_true.
  split; [intros [H|H]; [by destruct dir|done] | by right].
Qed.

Lemma prefix_snoc_inv (d l : path) (x : string) :
  d `prefix_of` l ++ [x] → d = l ++ [x] ∨ d `prefix_of` l.
Proof.
  intros [k Hk]. destruct k as [|y k _] using rev_ind.
  - left. by rewrite app_nil_r in Hk.
  - right. rewrite app_assoc in Hk. apply app_inj_tail in Hk as [-> _].
    by apply prefix_app_r.
Qed.

Lemma nearest_here (found : path → bool) (start d : path) :
  found start = true → nearest found start d ↔ d = start.
Proof.
  intros Hfound. split.
  - intros (Hpre & _ & Hnear). symmetry. by apply Hnear.
  - intros ->. repeat split; [done..|].
    intros d' H1 H2 _. apply prefix_length_eq; [done|]. by apply prefix_length.
Qed.

Lemma nearest_up (found : path → bool) (up d : path) (x : string) :
  found (up ++ [x]) = false → nearest found (up ++ [x]) d ↔ nearest found up d.
Proof.
  intros Hnot. split; intros (Hpre & Hfound & Hnear).
  - apply prefix_snoc_inv in Hpre as [->|Hpre]; [congruence|].
    repeat split; [done..|]. intros d' H1 H2 H3. apply Hnear; [done| |done].
    by apply prefix_app_r.
  - repeat split; [by apply prefix_app_r|done|].
    intros d' H1 H2 H3. apply prefix_snoc_inv in H2 as [->|H2]; [congruence|].
    by apply Hnear.
Qed.

Lemma walkUp_Some (found : path → bool) (rdir : list string) (d : path) :
  walkUp found rdir = Some d ↔ nearest found (reverse rdir) d.
Proof.
  induction rdir as [|x up IH]; cbn [walkUp].
  - rewrite !reverse_nil. destruct (found []) eqn:Hfound.
    + rewrite nearest_here by done. split; congruence.
    + split; [done|]. intros (Hpre & Hd & _).
      apply prefix_nil_inv in Hpre as ->. congruence.
  - destruct (found (reverse (x :: up))) eqn:Hfound.
    + rewrite nearest_here by done. split; congruence.
    + rewrite reverse_cons in Hfound |- *. by rewrite nearest_up, IH.
Qed.

Lemma walkUp_None (found : path → bool) (rdir : list string) :
  walkUp found rdir = None ↔ ∀ d, d `prefix_of` reverse rdir → found d = false.
Proof.
  induction rdir as [|x up IH]; cbn [walkUp].
  - rewrite !reverse_nil. destruct (found []) eqn:Hfound.
    + split; [done|]. intros H. rewrite (H []) in Hfound; done.
    + split; [|done]. intros _ d Hd. by apply prefix_nil_inv in Hd as ->.
  - destruct (found (reverse (x :: up))) eqn:Hfound.
    + split; [done|]. intros H. rewrite H in Hfound; done.
    + rewrite IH, reverse_cons. rewrite reverse_cons in Hfound. split.
      * intros H d Hd. apply prefix_snoc_inv in Hd as [->|Hd]; auto.
      * intros H d Hd. apply H. by apply prefix_app_r.
Qed.

Lemma nearest_manifest (fs : tree) (start d : path) :
  nearest (λ dir, present fs (Path.join dir "package.json")) start d
  ↔ NearestManifestDir fs start d.
Proof.
  unfold nearest, NearestManifestDir, manifestAt.
  setoid_rewrite join_package_json. setoid_rewrite present_snoc. done.
Qed.

Lemma tryPaths_markers (fs : tree) (dir : path) :
  is_Some (tryPaths fs [Path.join dir "lerna.json"; Path.join dir "pnpm-workspace.yaml"])
  ↔ hasWorkspaceMarker fs dir.
Proof.
  unfold hasWorkspaceMarker. rewrite <- !present_snoc.
  rewrite join_lerna_json, join_pnpm_workspace. unfold tryPaths. cbn [find].
  destruct (present fs (dir ++ ["lerna.json"]));
    destruct (present fs (dir ++ ["pnpm-workspace.yaml"]));
    split; intros H; try (by eexists); try (by left); try (by right).
  by destruct H.
Qed.

Lemma NearestManifestDir_unique (fs : tree) (start d1 d2 : path) :
  NearestManifestDir fs start d1 → NearestManifestDir fs start d2 → d1 = d2.
Proof.
  intros (Hpre1 & Hman1 & Hnear1) (Hpre2 & Hman2 & Hnear2).
  destruct (prefix_weak_total _ _ _ Hpre1 Hpre2) as [Hle|Hle].
  - symmetry. by apply Hnear1.
  - by apply Hnear2.
Qed.

(** The probe finds [dir] exactly when [dir] is the nearest manifest
    directory above the target and holds a marker. *)
Lemma detectMonorepoRoot_Some (fs : tree) (target dir : path) :
  detectMonorepoRoot fs target = Some dir ↔
  NearestManifestDir fs (Path.dirname target) dir ∧ hasWorkspaceMarker fs dir.
Proof.
  unfold detectMonorepoRoot, pkgUp.
  destruct (walkUp _ (reverse (Path.dirname target))) as [d|] eqn:Hwalk;
    cbn [fmap option_fmap option_map].
  - apply walkUp_Some in Hwalk.
    rewrite reverse_involutive, nearest_manifest in Hwalk.
    rewrite join_package_json, dirname_snoc.
    pose proof (tryPaths_markers fs d) as Hmark.
    destruct (tryPaths fs _) as [found|].
    + split.
      * intros [= <-]. split; [done|]. apply Hmark. by eexists.
      * intros [Hnear _]. f_equal. by eapply NearestManifestDir_unique.
    + split; [done|]. intros [Hnear Hm].
      rewrite <- (NearestManifestDir_unique _ _ _ _ Hwalk Hnear) in Hm.
      apply Hmark in Hm. by destruct Hm.
  - split; [done|]. intros [(Hpre & Hman & _) _].
    apply walkUp_None with (d := dir) in Hwalk.
    + rewrite join_package_json in Hwalk. apply present_snoc in Hman. congruence.
    + by rewrite reverse_involutive.
Qed.

(** Without a manifest on the way up there is no workspace root. *)
Lemma detectMonorepoRoot_no_manifest (fs : tree) (target : path) :
  (∀ d, d `prefix_of` Path.dirname target → ¬ manifestAt fs d) →
  detectMonorepoRoot fs target = None.
Proof.
  intros Hnone. destruct (detectMonorepoRoot fs target) as [dir|] eqn:Hdet; [|done].
  apply detectMonorepoRoot_Some in Hdet as [(Hpre & Hman & _) _].
  by destruct (Hnone dir).
Qed.

(** What the probe finds lies on the way from the parent of the target up
    to the root. *)
Lemma detectMonorepoRoot_above (fs : tree) (target dir : path) :
  detectMonorepoRoot fs target = Some dir → dir `prefix_of` Path.dirname target.
Proof. intros Hdet. by apply detectMonorepoRoot_Some in Hdet as [(Hpre & _) _]. Qed.

Lemma nearest_or_none (fs : tree) (start : path) :
  (∃ dir, NearestManifestDir fs start dir) ∨
  (∀ d, d `prefix_of` start → ¬ manifestAt fs d).
Proof.
  destruct (walkUp (λ dir, present fs (Path.join dir "package.json")) (reverse start))
    as [dir|] eqn:Hwalk.
  - left. exists dir. apply walkUp_Some in Hwalk.
    by rewrite reverse_involutive, nearest_manifest in Hwalk.
  - right. intros d Hd Hman. apply walkUp_None with (d := d) in Hwalk.
    + rewrite join_package_json in Hwalk. apply present_snoc in Hman. congruence.
    + by rewrite reverse_involutive.
Qed.

End Workspace.

(** C6: the workspace probe returns a directory exactly when it is the
    directory of the nearest package manifest, searching upward from the
    parent of the target, and holds [lerna.json] or [pnpm-workspace.yaml];
    it returns nothing exactly when there is no manifest up the tree or the
    nearest manifest's directory holds neither marker.  With
    [/a/package.json] and [/a/pnpm-workspace.yaml] the probe of [/a/pkg/b]
    returns [/a]; without the marker it returns nothing. *)
Theorem detectMonorepoRoot_nearest_marked :
  (∀ (fs : tree) (target dir : path),
     detectMonorepoRoot fs target = Some dir ↔
     NearestManifestDir fs (Path.dirname target) dir ∧ hasWorkspaceMarker fs dir) ∧
  (∀ (fs : tree) (target : path),
     detectMonorepoRoot fs target = None ↔
     (∀ d, d `prefix_of` Path.dirname target → ¬ manifestAt fs d) ∨
     (∃ dir, NearestManifestDir fs (Path.dirname target) dir ∧
             ¬ hasWorkspaceMarker fs dir)) ∧
  detectMonorepoRoot exampleWorkspace ["a"; "pkg"; "b"] = Some ["a"] ∧
  detectMonorepoRoot exampleSinglePackage ["a"; "pkg"; "b"] = None.
Proof.
  split; [exact detectMonorepoRoot_Some|]. split; [|split; by vm_compute].
  intros fs target. split.
  - intros Hdet. destruct (nearest_or_none fs (Path.dirname target)) as [[dir Hdir]|Hnone].
    + right. exists dir. split; [done|]. intros Hmark.
      assert (detectMonorepoRoot fs target = Some dir) as Hsome
        by by apply detectMonorepoRoot_Some.
      congruence.
    + by left.
  - intros [Hnone|(dir & Hdir & Hmark)].
    + by apply detectMonorepoRoot_no_manifest.
    + destruct (detectMonorepoRoot fs target) as [dir'|] eqn:Hdet; [|done].
      apply detectMonorepoRoot_Some in Hdet as [Hdir' Hmark'].
      by rewrite (NearestManifestDir_unique _ _ _ _ Hdir Hdir') in Hmark.
Qed.

(** ** The project context *)

(** C9, as the claim states it, fails at the root of the file system: with
    [/package.json] and [/lerna.json] the probe of the target [/] finds
    [/], so [projectRoot] is the target itself and no strict ancestor. *)
Lemma projectRoot_at_filesystem_root :
  let ctx := context (detectMonorepoRoot rootWorkspace []) [] in
  detectMonorepoRoot rootWorkspace [] = Some [] ∧
  IContext.inMonorepo ctx = true ∧
  IContext.projectRoot ctx = IContext.target ctx ∧
  ¬ strictAncestor (IContext.projectRoot ctx) (IContext.target ctx).
Proof.
  assert (Hdet : detectMonorepoRoot rootWorkspace [] = Some []) by by vm_compute.
  cbv zeta. rewrite Hdet. cbn. repeat split.
  intros [_ Hne]. by apply Hne.
Qed.

(** C9 (amended): [projectRoot] is an ancestor of the target or the target
    itself.  When the workspace probe finds a root, it is an ancestor of the
    parent directory of the target, so a strict ancestor of the target
    unless the target is the root of the file system; otherwise
    [projectRoot] is the target. *)
Theorem projectRoot_ancestor_or_self (fs : tree) (target : path) :
  let ctx := context (detectMonorepoRoot fs target) target in
  IContext.target ctx = target ∧
  IContext.projectRoot ctx `prefix_of` IContext.target ctx ∧
  match detectMonorepoRoot fs target with
  | Some dir =>
      IContext.inMonorepo ctx = true ∧ IContext.projectRoot ctx = dir ∧
      dir `prefix_of` Path.dirname target ∧
      (strictAncestor dir target ∨ target = [])
  | None => IContext.inMonorepo ctx = false ∧ IContext.projectRoot ctx = target
  end.
Proof.
  cbv zeta. destruct (detectMonorepoRoot fs target) as [dir|] eqn:Hdet; cbn.
  - apply detectMonorepoRoot_above in Hdet.
    assert (Hpre : dir `prefix_of` target)
      by (etrans; [exact Hdet | apply dirname_prefix]).
    repeat split; [done..|].
    destruct target as [|x target _] using rev_ind; [by right|left].
    split; [done|]. intros ->. rewrite dirname_snoc in Hdet.
    by apply prefix_snoc_not in Hdet.
  - done.
Qed.

(** ** Traces *)

Section Traces.

Context {A B : Type} (P : event → Prop).

Lemma emits_ret (a : A) : emits P (ret a).
Proof. intros w. exists []. by rewrite app_nil_r. Qed.

Lemma emits_throw (err : error) : emits P (throw (A := A) err).
Proof. intros w. exists []. by rewrite app_nil_r. Qed.

Lemma emits_process_exit (code : Z) : emits P (process_exit (A := A) code).
Proof. intros w. exists []. by rewrite app_nil_r. Qed.

Lemma emits_read (f : world → A) : emits P (λ w, (Return (f w), w)).
Proof. intros w. exists []. by rewrite app_nil_r. Qed.

Lemma emits_bind (m : M A) (k : A → M B) :
  emits P m → (∀ a, returns m a → emits P (k a)) → emits P (bind m k).
Proof.
  intros Hm Hk w. unfold bind. destruct (Hm w) as (evs1 & H1 & F1).
  destruct (m w) as [[a|err|code] w1] eqn:Hmw; cbn in H1 |- *; [|by exists evs1..].
  destruct (Hk a (ex_intro _ w (ex_intro _ w1 Hmw)) w1) as (evs2 & H2 & F2).
  exists (evs1 ++ evs2).
  rewrite H2, H1, app_assoc. split; [done|]. by apply Forall_app.
Qed.

Lemma bind_Return (m : M A) (k : A → M B) (w w' : world) (b : B) :
  bind m k w = (Return b, w') →
  ∃ a w1, m w = (Return a, w1) ∧ k a w1 = (Return b, w').
Proof.
  unfold bind. destruct (m w) as [[a|err|code] w1]; [|done..].
  intros Hk. by exists a, w1.
Qed.

Lemma emits_emitted (m : M A) (w : world) (ev : event) :
  emits P m → ev ∈ emitted m w → P ev.
Proof.
  intros Hm. destruct (Hm w) as (evs & H & F). unfold emitted.
  rewrite H, drop_app_length. by apply Forall_forall.
Qed.

Lemma emits_try_catch (m : M A) (handler : error → M A) :
  emits P m → (∀ err, emits P (handler err)) → emits P (try_catch m handler).
Proof.
  intros Hm Hh w. unfold try_catch. destruct (Hm w) as (evs1 & H1 & F1).
  destruct (m w) as [[a|err|code] w1]; cbn in H1 |- *; [by exists evs1| |by exists evs1].
  destruct (Hh err w1) as (evs2 & H2 & F2). exists (evs1 ++ evs2).
  rewrite H2, H1, app_assoc. split; [done|]. by apply Forall_app.
Qed.

Lemma emits_mono (Q : event → Prop) (m : M A) :
  (∀ ev, Q ev → P ev) → emits Q m → emits P m.
Proof.
  intros HQP Hm w. destruct (Hm w) as (evs & H & F). exists evs.
  split; [done|]. eapply Forall_impl; eauto.
Qed.

End Traces.

Section Primitives.

Context (P : event → Prop).

Lemma emits_emit (ev : event) : P ev → emits P (emit ev).
Proof. intros Hev w. exists [ev]. cbn. split; [done|]. by constructor. Qed.

Lemma emits_logger (l : level) (message : string) :
  P (Log l message) → emits P (logger l message).
Proof. apply emits_emit. Qed.

Lemma emits_existsSync (p : path) : emits P (existsSync p).
Proof. intros w. exists []. by rewrite app_nil_r. Qed.

Lemma emits_copyFile (e : env) (src dest : path) : emits P (copyFile e src dest).
Proof.
  intros w. exists []. rewrite app_nil_r. unfold copyFile.
  by repeat case_match.
Qed.

Lemma emits_remove (e : env) (p : path) : emits P (remove e p).
Proof.
  intros w. exists []. rewrite app_nil_r. unfold remove.
  by repeat case_match.
Qed.

Lemma emits_execa (e : env) (file : string) (argv : list string) (cwd : option path) :
  P (Spawn file argv cwd) → emits P (execa e file argv cwd).
Proof.
  intros Hev w. exists [Spawn file argv cwd]. unfold execa.
  split; [by repeat case_match | by constructor].
Qed.

Lemma emits_collaborator (ev : event) (who : string) (run : tree → option tree) :
  P ev → emits P (collaborator ev who run).
Proof.
  intros Hev w. exists [ev]. unfold collaborator.
  split; [by repeat case_match | by constructor].
Qed.

End Primitives.

(** One step of the decomposition of a program into its primitives. *)
Ltac emits_step :=
  lazymatch goal with
  | |- emits _ (bind _ _) => apply emits_bind; [|intros ? ?]
  | |- emits _ (try_catch _ _) => apply emits_try_catch; [|intros ?]
  | |- emits _ (ret _) => apply emits_ret
  | |- emits _ skip => apply emits_ret
  | |- emits _ (throw _) => apply emits_throw
  | |- emits _ (process_exit _) => apply emits_process_exit
  | |- emits _ (existsSync _) => apply emits_existsSync
  | |- emits _ (copyFile _ _ _) => apply emits_copyFile
  | |- emits _ (remove _ _) => apply emits_remove
  | |- emits _ (logger _ _) => apply emits_logger
  | |- emits _ (execa _ _ _ _) => apply emits_execa
  | |- emits _ (collaborator _ _ _) => apply emits_collaborator
  | |- emits _ (λ w, (Return _, w)) => apply emits_read
  | |- emits _ (if ?b then _ else _) => destruct b eqn:?
  | |- emits _ (match ?x with _ => _ end) => destruct x eqn:?
  | |- emits _ (let '(_, _) := ?x in _) => destruct x eqn:?
  end.

Ltac emits_unfold :=
  progress unfold main, collect, provision, reconcile, installDeps, prepare, choose,
    internalTemplatePrompts, selectAppTemplate, selectRegistry, selectNpmClient, select,
    pnpmMajorVersion, injectInternalTemplateFiles, installWithPnpm8,
    installWithNpmClient, unpackTemplate, removeHusky, moveNpmrc, initGit,
    getPnpmMajorVersion, detectUserRegistry.

Ltac emits_auto := repeat first [emits_step | emits_unfold].

(** Programs only ever extend the trace. *)
Ltac extends_trace := emits_auto; done.

Section Phases.

Context (e : env).

(** The steps on the generated tree spawn [git init] and write two log
    lines, nothing else. *)
Lemma emits_reconcile (P : event → Prop) (args : IArgs.t) (ctx : IContext.t) (husky : bool) :
  P (Spawn "git" ["init"] (Some (IContext.projectRoot ctx))) →
  P (Log error_level "Initial the git repo failed") →
  P (Log info "Skip Git init") →
  emits P (reconcile e args ctx husky).
Proof. intros H1 H2 H3. emits_auto; done. Qed.

(** Before the generation, the only events are the registry probe and the
    unpacking of an external template. *)
Lemma emits_collect (P : event → Prop) (cwd : path) (args : IArgs.t)
    (defaultData : IDefaultData.t) :
  P (Spawn "npm" ["config"; "get"; "registry"] None) →
  (∀ template dest reg, P (UnpackTemplate template dest reg)) →
  emits P (collect e cwd args defaultData).
Proof. intros H1 H2. emits_auto; done. Qed.

Lemma emits_pnpmMajorVersion (P : event → Prop) (c : choices) :
  P (Spawn "pnpm" ["--version"] None) → emits P (pnpmMajorVersion e c).
Proof. intros H1. emits_auto; done. Qed.

Lemma prepare_returns (cwd : path) (args : IArgs.t) (s : setup) :
  returns (prepare e cwd args) s →
  useDefaultData s = bool_decide (IArgs.default args = Some true) ∧
  useExternalTemplate s = match IArgs.template args with
                          | Some t => Js.truthy t
                          | None => false
                          end.
Proof.
  intros (w & w' & H). unfold prepare in H. destruct (gitInfo e) as [username mail].
  apply bind_Return in H as (reg & w1 & _ & H). by injection H as <- _.
Qed.

Lemma collect_returns (cwd : path) (args : IArgs.t) (defaultData : IDefaultData.t)
    (s : setup) (c : choices) :
  returns (collect e cwd args defaultData) (s, c) → returns (prepare e cwd args) s.
Proof.
  intros (w & w' & H). unfold collect in H.
  apply bind_Return in H as (s' & w1 & Hs & H).
  apply bind_Return in H as (c' & w2 & _ & H).
  injection H as <- <- _. by exists w, w1.
Qed.

(** With the use-defaults flag the installation block writes the skip
    notice first, installs nothing and cannot fail. *)
Lemma installDeps_default (args : IArgs.t) (s : setup) (c : choices)
    (major : option Js.number) (w : world) :
  useDefaultData s = true →
  ∃ extra,
    installDeps e args s c major w
    = (Return (), {| files := files w;
                     trace := trace w ++ Log info "Skip install deps" :: extra |}) ∧
    Forall (λ ev, ¬ isInstall ev) extra.
Proof.
  intros Hs. unfold installDeps. rewrite Hs. cbn [negb andb].
  destruct (Js.strictEq major 8).
  - eexists [_; _]. split.
    + unfold bind, logger, emit. cbn. by rewrite <- !app_assoc.
    + repeat constructor; by intros [].
  - exists []. split; [done | constructor].
Qed.

(** Without the use-defaults flag and with [--no-install] the block writes
    the skip notice as well. *)
Lemma installDeps_skipped (args : IArgs.t) (s : setup) (c : choices)
    (major : option Js.number) (w : world) :
  negb (useDefaultData s) && negb (bool_decide (IArgs.install args = Some false)) = false →
  ∃ extra,
    installDeps e args s c major w
    = (Return (), {| files := files w;
                     trace := trace w ++ Log info "Skip install deps" :: extra |}) ∧
    Forall (λ ev, ¬ isInstall ev) extra.
Proof.
  intros Hs. unfold installDeps. rewrite Hs.
  destruct (Js.strictEq major 8).
  - eexists [_; _]. split.
    + unfold bind, logger, emit. cbn. by rewrite <- !app_assoc.
    + repeat constructor; by intros [].
  - exists []. split; [done | constructor].
Qed.

(** A run that ends normally went through the installation block. *)
Lemma main_Return (cwd : path) (args : IArgs.t) (defaultData : option IDefaultData.t)
    (w w' : world) :
  main e cwd args defaultData w = (Return (), w') →
  ∃ s c major w4 evs,
    returns (prepare e cwd args) s ∧
    installDeps e args s c major w4 = (Return (), w') ∧
    trace w4 = trace w ++ evs.
Proof.
  unfold main, provision. intros H.
  apply bind_Return in H as ([s c] & w1 & Hcollect & H). cbn [fst snd] in H.
  apply bind_Return in H as (root & w2 & Hroot & H).
  apply bind_Return in H as (major & w3 & Hmajor & H).
  apply bind_Return in H as ([] & w4 & Hgen & H).
  apply bind_Return in H as ([] & w5 & Hrec & H).
  injection Hroot as <- <-.
  assert (H1 : emits (λ _, True) (collect e cwd args (default (DEFAULT_DATA e) defaultData)))
    by extends_trace.
  assert (H2 : emits (λ _, True) (pnpmMajorVersion e c)) by extends_trace.
  assert (H3 : emits (λ _, True)
                 (if negb (useExternalTemplate s)
                  then injectInternalTemplateFiles e c (target s)
                         (templateData e args (default (DEFAULT_DATA e) defaultData) s c
                            (detectMonorepoRoot (files w1) (target s)) major)
                  else skip)) by extends_trace.
  assert (H4 : emits (λ _, True)
                 (reconcile e args (context (detectMonorepoRoot (files w1) (target s)) (target s))
                    (withHusky args (detectMonorepoRoot (files w1) (target s)))))
    by extends_trace.
  destruct (H1 w) as (evs1 & E1 & _). rewrite Hcollect in E1.
  destruct (H2 w1) as (evs2 & E2 & _). rewrite Hmajor in E2.
  destruct (H3 w3) as (evs3 & E3 & _). rewrite Hgen in E3.
  destruct (H4 w4) as (evs4 & E4 & _). rewrite Hrec in E4.
  cbn [snd] in *.
  exists s, c, major, w5, (evs1 ++ evs2 ++ evs3 ++ evs4). split; [|split; [done|]].
  - eapply collect_returns. by exists w, w1.
  - rewrite E4, E3, E2, E1. by rewrite <- !app_assoc.
Qed.

End Phases.

(** ** Dependency installation *)

(** C10: with the use-defaults flag the installation block installs nothing
    and writes the skip notice, whatever the install flag is.  Over a whole
    run, dependencies are installed only when the use-defaults flag is not
    set and the install flag is not [false]; a run with the use-defaults
    flag that ends normally has written the skip notice. *)
Theorem install_only_without_defaults :
  (∀ (e : env) (args : IArgs.t) (s : setup) (c : choices)
     (major : option Js.number) (w : world),
     useDefaultData s = true →
     ∃ extra,
       installDeps e args s c major w
       = (Return (), {| files := files w;
                        trace := trace w ++ Log info "Skip install deps" :: extra |}) ∧
       Forall (λ ev, ¬ isInstall ev) extra) ∧
  (∀ (e : env) (cwd : path) (args : IArgs.t) (defaultData : option IDefaultData.t)
     (w : world) (ev : event),
     ev ∈ emitted (main e cwd args defaultData) w → isInstall ev →
     IArgs.default args ≠ Some true ∧ IArgs.install args ≠ Some false) ∧
  (∀ (e : env) (cwd : path) (args : IArgs.t) (defaultData : option IDefaultData.t)
     (w : world),
     (main e cwd args defaultData w).1 = Return () →
     IArgs.default args = Some true →
     Log info "Skip install deps" ∈ emitted (main e cwd args defaultData) w).
Proof.
  split; [exact installDeps_default|]. split.
  - intros e cwd args defaultData w ev Hev.
    eapply (emits_emitted (λ ev, isInstall ev →
              IArgs.default args ≠ Some true ∧ IArgs.install args ≠ Some false));
      [|exact Hev].
    unfold main.
    apply emits_bind.
    { apply emits_collect; [by intros [? _]|by intros ? ? ? []]. }
    intros [s c] Hsc. apply collect_returns, prepare_returns in Hsc as [Hs _].
    cbn [fst snd]. emits_auto; try by intros [].
    all: try by intros [_ ?].
    all: intros _;
      match goal with
      | Hrun : negb _ && negb _ = true |- _ =>
          rewrite Hs in Hrun;
          apply andb_prop in Hrun as [Hflag Hinstall];
          apply negb_true_iff, bool_decide_eq_false in Hflag;
          apply negb_true_iff, bool_decide_eq_false in Hinstall
      end; done.
  - intros e cwd args defaultData w Hret Hdefault.
    destruct (main e cwd args defaultData w) as [out w'] eqn:Hmain.
    cbn [fst] in Hret. subst out.
    pose proof Hmain as Hrun.
    apply main_Return in Hrun as (s & c & major & w4 & evs & Hs & Hinstall & Htrace).
    apply prepare_returns in Hs as [Hs _].
    rewrite Hdefault, bool_decide_eq_true_2 in Hs by done.
    destruct (installDeps_default e args s c major w4 Hs) as (extra & Hskip & _).
    rewrite Hskip in Hinstall. injection Hinstall as <-.
    unfold emitted. rewrite Hmain. cbn [snd trace].
    rewrite Htrace, <- app_assoc, drop_app_length.
    apply elem_of_app. right. by left.
Qed.

(** A run with the use-defaults flag and pnpm 8 writes the skip notice. *)
Lemma install_skipped_example :
  Log info "Skip install deps"
  ∈ emitted (main (exampleEnv (Some "8.6.0")) ["a"] defaultArgs None) emptyWorld.
Proof.
  destruct install_only_without_defaults as (_ & _ & Hskip).
  apply Hskip; by vm_compute.
Defined.

(** ** Config relocation *)

Section Removal.

Lemma without_lookup_below (p q : path) (fs : tree) :
  p `prefix_of` q → without p fs !! q = None.
Proof.
  intros Hpq. apply map_lookup_filter_None. right. intros n _ Hn. by apply Hn.
Qed.

Lemma without_lookup_other (p q : path) (fs : tree) :
  ¬ p `prefix_of` q → without p fs !! q = fs !! q.
Proof.
  intros Hpq. destruct (fs !! q) as [n|] eqn:Hq.
  - by apply map_lookup_filter_Some.
  - apply map_lookup_filter_None. by left.
Qed.


(** What a refused removal of [p] leaves: [p] is as it was, and so is
    everything that is not below [p]. *)
Lemma refused_lookup (p q : path) (gone : list path) (fs : tree) :
  ¬ p `prefix_of` q ∨ q = p →
  foldr without fs (filter (λ g, p `prefix_of` g ∧ p ≠ g) gone) !! q = fs !! q.
Proof.
  intros Hq. induction gone as [|g gone IH]; [done|].
  rewrite filter_cons. case_decide as Hg; [|done]. cbn [foldr].
  rewrite without_lookup_other; [done|].
  destruct Hg as [Hpg Hne]. intros Hgq. destruct Hq as [Hq| ->].
  - apply Hq. by etrans.
  - apply Hne. apply prefix_length_eq; [done|]. by apply prefix_length.
Qed.

(** The removal, run: it writes nothing to the trace, it changes nothing
    that is not below [p], and it leaves nothing below [p] unless it is
    refused, when [p] itself stays. *)
Lemma remove_run (e : env) (p : path) (w : world) :
  ∃ out w',
    remove e p w = (out, w') ∧ trace w' = trace w ∧
    (∀ q, ¬ p `prefix_of` q → files w' !! q = files w !! q) ∧
    match remove_refused e p (files w) with
    | Some (code, _) => out = Throw (FsError code p) ∧ files w' !! p = files w !! p
    | None => out = Return () ∧ files w' = without p (files w)
    end.
Proof.
  unfold remove. destruct (remove_refused e p (files w)) as [[code gone]|];
    eexists _, _; (split; [reflexivity|]); cbn [files trace]; split_and!; try done.
  - intros q Hq. apply refused_lookup. by left.
  - apply refused_lookup. by right.
  - intros q Hq. by apply without_lookup_other.
Qed.

End Removal.

Section Relocation.

Context (e : env) (ctx : IContext.t).

Local Abbreviation localNpmrc := (IContext.target ctx ++ [".npmrc"]).
Local Abbreviation rootNpmrc := (IContext.projectRoot ctx ++ [".npmrc"]).




(** Without a config file at either place the copy fails and the error
    leaves the step. *)
Lemma moveNpmrc_throws (w : world) :
  files w !! rootNpmrc = None →
  files w !! localNpmrc = None →
  ∃ code p, moveNpmrc e ctx w = (Throw (FsError code p), w).
Proof.
  intros Hroot Hlocal.
  assert (Habsent : present (files w) rootNpmrc = false).
  { apply not_true_iff_false. rewrite present_snoc, Hroot. by intros []. }
  unfold moveNpmrc, bind, existsSync, copyFile.
  change (Path.join (IContext.projectRoot ctx) "./.npmrc") with rootNpmrc.
  change (Path.join (IContext.target ctx) "./.npmrc") with localNpmrc.
  rewrite Habsent. cbn [negb]. rewrite Hlocal.
  destruct (copy_refused e localNpmrc rootNpmrc (files w)); by eexists _, _.
Qed.

End Relocation.

Local Abbreviation localOf ctx := (IContext.target ctx ++ [".npmrc"]).
Local Abbreviation rootOf ctx := (IContext.projectRoot ctx ++ [".npmrc"]).




(** ** The pnpm version probe in a run *)

Section Probe.

Context (e : env).

Lemma bind_run_Return {A B} (m : M A) (k : A → M B) (w w1 : world) (a : A) :
  m w = (Return a, w1) → bind m k w = k a w1.
Proof. intros H. unfold bind. by rewrite H. Qed.

Lemma bind_run_Throw {A B} (m : M A) (k : A → M B) (w w1 : world) (err : error) :
  m w = (Throw err, w1) → bind m k w = (Throw err, w1).
Proof. intros H. unfold bind. by rewrite H. Qed.

Lemma bind_run_Exit {A B} (m : M A) (k : A → M B) (w w1 : world) (code : Z) :
  m w = (Exit code, w1) → bind m k w = (Exit code, w1).
Proof. intros H. unfold bind. by rewrite H. Qed.

(** When [pnpm --version] cannot be run the probe throws. *)
Lemma getPnpmMajorVersion_fails (w : world) :
  run_process e "pnpm" ["--version"] None (files w) = None →
  getPnpmMajorVersion e w
  = (Throw (JsError "Please install pnpm first" (ExecaError "pnpm" ["--version"])),
     {| files := files w; trace := trace w ++ [Spawn "pnpm" ["--version"] None] |}).
Proof.
  intros Hrun. unfold getPnpmMajorVersion, try_catch, bind, execa. by rewrite Hrun.
Qed.

(** What the probe returns: the parsed output for pnpm, nothing for the
    other package managers. *)
Lemma pnpmMajorVersion_Return (c : choices) (w w' : world) (major : option Js.number) :
  pnpmMajorVersion e c w = (Return major, w') →
  (npmClient c = ENpmClient.pnpm ∧
   ∃ stdout fs', run_process e "pnpm" ["--version"] None (files w) = Some (stdout, fs') ∧
                 major = Some (majorOfStdout stdout)) ∨
  (npmClient c ≠ ENpmClient.pnpm ∧ major = None).
Proof.
  unfold pnpmMajorVersion. destruct (decide (npmClient c = ENpmClient.pnpm)) as [Hc|Hc].
  - unfold getPnpmMajorVersion, try_catch, bind, execa, ret, throw.
    destruct (run_process e "pnpm" ["--version"] None (files w)) as [[stdout fs']|];
      [|done].
    intros [= <- _]. left. split; [done|]. by exists stdout, fs'.
  - intros [= <- _]. by right.
Qed.

End Probe.

(** C5: when the selected package manager is pnpm and [pnpm --version]
    cannot be run, the run ends with the error of the probe, in the world
    the prompts left and with the probe as the only further event: no
    template is generated, no file is removed or moved, and neither
    [git init] nor an installation is started. *)
Theorem pnpm_probe_failure_aborts (e : env) (cwd : path) (args : IArgs.t)
    (defaultData : option IDefaultData.t) (w w1 : world) (s : setup) (c : choices) :
  collect e cwd args (default (DEFAULT_DATA e) defaultData) w = (Return (s, c), w1) →
  npmClient c = ENpmClient.pnpm →
  run_process e "pnpm" ["--version"] None (files w1) = None →
  main e cwd args defaultData w
  = (Throw (JsError "Please install pnpm first" (ExecaError "pnpm" ["--version"])),
     {| files := files w1; trace := trace w1 ++ [Spawn "pnpm" ["--version"] None] |}).
Proof.
  intros Hcollect Hpnpm Hrun. unfold main.
  rewrite (bind_run_Return _ _ _ _ _ Hcollect). cbn [fst snd]. unfold provision.
  erewrite bind_run_Return by reflexivity.
  apply bind_run_Throw. unfold pnpmMajorVersion.
  rewrite decide_True by done.
  apply bind_run_Throw. by apply getPnpmMajorVersion_fails.
Qed.

(** A run with the use-defaults flag on a machine without pnpm. *)
Lemma pnpm_probe_failure_example :
  main (exampleEnv None) ["a"] defaultArgs None emptyWorld
  = (Throw (JsError "Please install pnpm first" (ExecaError "pnpm" ["--version"])),
     {| files := ∅;
        trace := [Spawn "npm" ["config"; "get"; "registry"] None;
                  Spawn "pnpm" ["--version"] None] |}).
Proof.
  apply (pnpm_probe_failure_aborts (exampleEnv None) ["a"] defaultArgs None emptyWorld
           {| files := ∅; trace := [Spawn "npm" ["config"; "get"; "registry"] None] |}
           {| name := None; author := "umi <umi@example.com>"; email := "umi@example.com";
              target := ["a"]; customRegistry := None; useDefaultData := true;
              useExternalTemplate := false |}
           {| appTemplate := ETemplate.app; npmClient := ENpmClient.pnpm;
              chosenRegistry := ERegistry_npm; pluginName := "umi-plugin-demo" |});
    reflexivity.
Defined.

(** ** Hooks tooling *)

(** C3: [withHusky] is true exactly when git initialization is enabled (the
    [git] flag is not [false]) and the workspace probe found no workspace
    root, that is, the context is not inside a workspace. *)
Theorem withHusky_iff (args : IArgs.t) (monorepoRoot : option path) (target : path) :
  (withHusky args monorepoRoot = true ↔
   shouldInitGit args = true ∧
   IContext.inMonorepo (context monorepoRoot target) = false) ∧
  (shouldInitGit args = true ↔ IArgs.git args ≠ Some false) ∧
  (IContext.inMonorepo (context monorepoRoot target) = false ↔ monorepoRoot = None).
Proof.
  unfold withHusky, shouldInitGit, context. cbn [IContext.inMonorepo].
  rewrite andb_true_iff, !negb_true_iff, !bool_decide_eq_false.
  repeat split; try tauto.
  - intros Hnone. destruct monorepoRoot; [|done]. destruct Hnone. by eexists.
  - intros -> [? ?]. done.
Qed.

(** ** The template data *)

Section TemplateData.

Context (e : env) (args : IArgs.t) (defaultData : IDefaultData.t).

(** After the generation no further template is generated. *)
Lemma emits_after_generate (P : event → Prop) (s : setup) (c : choices)
    (ctx : IContext.t) (husky : bool) (major : option Js.number) :
  (∀ ev, (∀ t g d, ev ≠ Generate t g d) → P ev) →
  emits P (reconcile e args ctx husky;; installDeps e args s c major).
Proof. intros HP. emits_auto; by apply HP. Qed.

(** Without the use-defaults flag the auxiliary config line is there for
    pnpm 7 only. *)
Lemma templateData_extraNpmrc (s : setup) (c : choices) (monorepoRoot : option path)
    (major : option Js.number) :
  useDefaultData s = false →
  let data := templateData e args defaultData s c monorepoRoot major in
  IDefaultData.npmClient data = npmClient c ∧
  (IDefaultData.extraNpmrc data = "strict-peer-dependencies=false" ↔
   npmClient c = ENpmClient.pnpm ∧ major = Some (Js.Num 7)) ∧
  (IDefaultData.extraNpmrc data = "strict-peer-dependencies=false" ∨
   IDefaultData.extraNpmrc data = "").
Proof.
  intros Hs. unfold templateData. rewrite Hs. cbn.
  split; [done|]. unfold pnpmExtraNpmrc, Js.strictEq.
  destruct (decide (npmClient c = ENpmClient.pnpm)) as [Hc|Hc];
    [|split; [split; [done | by intros [? _]] | by right]].
  destruct major as [[|z|negative]|];
    try (split; [split; [done | by intros [_ ?]] | by right]).
  destruct (Z.eqb_spec z 7) as [->|Hz].
  - split; [done | by left].
  - split; [|by right]. split; [done|]. intros [_ [= ?]]. done.
Qed.

End TemplateData.

(** C2, as the claim states it, fails with the use-defaults flag: the
    selected package manager is pnpm and the probe detects major version 7,
    and the generator is handed the default data, whose auxiliary config
    field is empty. *)
Lemma default_data_without_extraNpmrc :
  let e := exampleEnv (Some "7.30.0") in
  emitted (main e ["a"] defaultArgs None) emptyWorld
  = [Spawn "npm" ["config"; "get"; "registry"] None;
     Spawn "pnpm" ["--version"] None;
     Generate ETemplate.app ["a"] (DEFAULT_DATA e);
     Spawn "git" ["init"] (Some ["a"]);
     Log info "Skip install deps"] ∧
  IDefaultData.npmClient (DEFAULT_DATA e) = ENpmClient.pnpm ∧
  (getPnpmMajorVersion e emptyWorld).1 = Return (Js.Num 7) ∧
  IDefaultData.extraNpmrc (DEFAULT_DATA e) = "" ∧
  IDefaultData.extraNpmrc (DEFAULT_DATA e) ≠ "strict-peer-dependencies=false".
Proof. cbv zeta. repeat split; by vm_compute. Qed.

(** C2 (amended): in a run without the use-defaults flag, the data handed
    to the generator names the selected package manager, and its auxiliary
    config field is the strict-peer-dependency line exactly when that
    package manager is pnpm and the probe detects major version 7, and
    empty otherwise.  With the use-defaults flag the generator is handed
    the default data as they are. *)
Theorem extraNpmrc_iff_pnpm7 (e : env) (cwd : path) (args : IArgs.t)
    (defaultData : option IDefaultData.t) (w : world)
    (template : ETemplate.t) (dest : path) (data : IDefaultData.t) :
  Generate template dest data ∈ emitted (main e cwd args defaultData) w →
  (IArgs.default args = Some true → data = default (DEFAULT_DATA e) defaultData) ∧
  (IArgs.default args ≠ Some true →
   ∃ s c w1,
     collect e cwd args (default (DEFAULT_DATA e) defaultData) w = (Return (s, c), w1) ∧
     IDefaultData.npmClient data = npmClient c ∧
     (IDefaultData.extraNpmrc data = "strict-peer-dependencies=false" ↔
      npmClient c = ENpmClient.pnpm ∧
      ∃ stdout fs',
        run_process e "pnpm" ["--version"] None (files w1) = Some (stdout, fs') ∧
        majorOfStdout stdout = Js.Num 7) ∧
     (IDefaultData.extraNpmrc data = "strict-peer-dependencies=false" ∨
      IDefaultData.extraNpmrc data = "")).
Proof.
  intros Hgen. set (dd := default (DEFAULT_DATA e) defaultData).
  (* the events of the prompts *)
  destruct (emits_collect e (λ ev, ∀ t g d, ev ≠ Generate t g d) cwd args dd
              ltac:(done) ltac:(done) w) as (evs1 & E1 & F1).
  unfold emitted, main in Hgen. fold dd in Hgen.
  destruct (collect e cwd args dd w) as [[[s c]|err|code] w1] eqn:Hcollect;
    cbn [snd] in E1.
  2,3: (erewrite ?bind_run_Throw, ?bind_run_Exit in Hgen by exact Hcollect);
       cbn [snd] in Hgen; rewrite E1, drop_app_length in Hgen;
       by destruct (proj1 (Forall_forall _ _) F1 _ Hgen template dest data).
  rewrite (bind_run_Return _ _ _ _ _ Hcollect) in Hgen. cbn [fst snd] in Hgen.
  assert (Hs : useDefaultData s = bool_decide (IArgs.default args = Some true)).
  { eapply prepare_returns, collect_returns. by exists w, w1. }
  (* the probe *)
  unfold provision in Hgen. erewrite bind_run_Return in Hgen by reflexivity.
  set (root := detectMonorepoRoot (files w1) (target s)) in Hgen.
  destruct (emits_pnpmMajorVersion e (λ ev, ∀ t g d, ev ≠ Generate t g d) c
              ltac:(done) w1) as (evs2 & E2 & F2).
  destruct (pnpmMajorVersion e c w1) as [[major|err|code] w2] eqn:Hmajor;
    cbn [snd] in E2.
  2,3: (erewrite ?bind_run_Throw, ?bind_run_Exit in Hgen by exact Hmajor);
       cbn [snd] in Hgen; rewrite E2, E1, <- app_assoc, drop_app_length in Hgen;
       apply elem_of_app in Hgen as [Hgen|Hgen];
       [by destruct (proj1 (Forall_forall _ _) F1 _ Hgen template dest data)
       |by destruct (proj1 (Forall_forall _ _) F2 _ Hgen template dest data)].
  rewrite (bind_run_Return _ _ _ _ _ Hmajor) in Hgen.
  (* the generation and what follows it *)
  set (data0 := templateData e args dd s c root major) in Hgen.
  match type of Hgen with
  | _ ∈ drop _ (trace (?rest w2).2) =>
      assert (Hrest : emits (λ ev, ∀ t g d, ev = Generate t g d → d = data0) rest)
  end.
  { apply emits_bind; [|intros _ _; apply emits_after_generate].
    - emits_auto. by intros t g d [= _ _ <-].
    - intros ev Hev t g d ->. by destruct (Hev t g d). }
  destruct (Hrest w2) as (evs3 & E3 & F3).
  rewrite E3, E2, E1, <- !app_assoc, drop_app_length in Hgen.
  assert (data = data0) as ->.
  { apply elem_of_app in Hgen as [Hgen|Hgen];
      [by destruct (proj1 (Forall_forall _ _) F1 _ Hgen template dest data)|].
    apply elem_of_app in Hgen as [Hgen|Hgen];
      [by destruct (proj1 (Forall_forall _ _) F2 _ Hgen template dest data)|].
    by apply (proj1 (Forall_forall _ _) F3 _ Hgen template dest). }
  split.
  - intros Hflag. unfold data0, templateData.
    by rewrite Hs, Hflag, bool_decide_eq_true_2.
  - intros Hflag. rewrite bool_decide_eq_false_2 in Hs by done.
    exists s, c, w1. split; [done|]. subst data0.
    destruct (templateData_extraNpmrc e args dd s c root major Hs) as (Hc & Hiff & Hor).
    split; [done|]. split; [|done]. rewrite Hiff.
    apply pnpmMajorVersion_Return in Hmajor
      as [(Hpnpm & stdout & fs' & Hrun & ->)|[Hother ->]].
    + rewrite Hrun. split.
      * intros [_ [= Hseven]]. split; [done|]. by exists stdout, fs'.
      * intros (_ & stdout' & fs'' & [= <- _] & Hseven). by rewrite Hseven.
    + split; [by intros [_ ?] | by intros [? _]].
Qed.

(** A prompted run with pnpm 7: the generator is handed the line. *)
Lemma extraNpmrc_iff_pnpm7_example :
  let e := exampleEnv (Some "7.30.0") in
  let data :=
    {| IDefaultData.pluginName := Some "umi-plugin-b";
       IDefaultData.version := "^4.0.0";
       IDefaultData.npmClient := ENpmClient.pnpm;
       IDefaultData.registry := ERegistry_npm;
       IDefaultData.author := "umi <umi@example.com>";
       IDefaultData.email := "umi@example.com";
       IDefaultData.withHusky := true;
       IDefaultData.extraNpmrc := "strict-peer-dependencies=false";
       IDefaultData.appTemplate := None |} in
  Generate ETemplate.app ["a"; "b"] data ∈ emitted (main e ["a"] plainArgs None) emptyWorld ∧
  (IDefaultData.extraNpmrc data = "strict-peer-dependencies=false" ∨
   IDefaultData.extraNpmrc data = "").
Proof.
  cbv zeta.
  match goal with
  | |- ?Hyp ∧ _ => assert (Hin : Hyp)
  end.
  { apply list_elem_of_In. vm_compute. right. right. left. reflexivity. }
  split; [exact Hin|].
  destruct (extraNpmrc_iff_pnpm7 _ _ _ _ _ _ _ _ Hin) as [_ Hplain].
  destruct Hplain as (s & c & w1 & _ & _ & _ & Hor); [done | exact Hor].
Defined.

(** ** Failures inside the steps *)

(** A failing [git init] is caught inside the step: the step logs and
    returns. *)
Lemma initGit_returns (e : env) (ctx : IContext.t) (w : world) :
  ∃ w', initGit e ctx w = (Return (), w').
Proof.
  unfold initGit, bind, existsSync, try_catch, execa, skip, ret, logger, emit.
  destruct (present (files w) _); [by eexists|].
  destruct (run_process e "git" ["init"] _ (files w)) as [[stdout fs']|]; by eexists.
Qed.

(** C1 fails for the config relocation: an external template unpacked
    into the example workspace brings no [.npmrc], the workspace root has
    none either, and the error of the copy leaves [moveNpmrc] and ends the
    run before [git init] and the installation. *)
Theorem relocation_failure_aborts_run :
  let result :=
    main (exampleEnv (Some "8.6.0")) ["a"; "pkg"] templateArgs None
      {| files := exampleWorkspace; trace := [] |} in
  result.1 = Throw (FsError "ENOENT" ["a"; "pkg"; "b"; ".npmrc"]) ∧
  trace result.2
  = [Spawn "npm" ["config"; "get"; "registry"] None;
     UnpackTemplate "some-template" ["a"; "pkg"; "b"] ERegistry_npm;
     Spawn "pnpm" ["--version"] None] ∧
  files result.2 !! ["a"; ".git"] = None.
Proof. cbv zeta. repeat split; by vm_compute. Qed.

(** * Further properties *)

(** ** The steps on the generated tree, one by one *)

Section Steps.

Context (ctx : IContext.t).

Local Abbreviation huskyDir := (IContext.target ctx ++ [".husky"]).
Local Abbreviation gitDir := (IContext.projectRoot ctx ++ [".git"]).
Local Abbreviation localNpmrc := (IContext.target ctx ++ [".npmrc"]).
Local Abbreviation rootNpmrc := (IContext.projectRoot ctx ++ [".npmrc"]).

Lemma present_false_snoc (fs : tree) (dir : path) (segment : string) :
  present fs (dir ++ [segment]) = false ↔ fs !! (dir ++ [segment]) = None.
Proof.
  rewrite <- not_true_iff_false, present_snoc, <- eq_None_not_Some. done.
Qed.

(** The removal of the hooks directory writes nothing to the trace and
    changes nothing outside [.husky] of the target, however it ends.
    Without a [.husky] it does nothing at all.  It fails exactly when there
    is a [.husky] whose removal the file system refuses: the error leaves
    the step, and [.husky] is still there.  When it returns, there is no
    [.husky] (and nothing below the one it found), and a second removal
    returns and changes nothing. *)
Theorem removeHusky_idempotent (e : env) (w : world) :
  ∃ out w',
    removeHusky e ctx w = (out, w') ∧
    trace w' = trace w ∧
    (∀ code, out ≠ Exit code) ∧
    (∀ q, ¬ huskyDir `prefix_of` q → files w' !! q = files w !! q) ∧
    (files w !! huskyDir = None → out = Return () ∧ w' = w) ∧
    ((∃ err, out = Throw err) ↔
     is_Some (files w !! huskyDir) ∧ is_Some (remove_refused e huskyDir (files w))) ∧
    (∀ err, out = Throw err →
       (∃ code, err = FsError code huskyDir) ∧
       files w' !! huskyDir = files w !! huskyDir) ∧
    (out = Return () →
     files w' !! huskyDir = None ∧
     (is_Some (files w !! huskyDir) →
      ∀ q, huskyDir `prefix_of` q → files w' !! q = None) ∧
     removeHusky e ctx w' = (Return (), w')).
Proof.
  assert (Hskip : ∀ v, files v !! huskyDir = None → removeHusky e ctx v = (Return (), v)).
  { intros v Hv. apply present_false_snoc in Hv. unfold removeHusky, bind, existsSync.
    change (Path.join (IContext.target ctx) "./.husky") with huskyDir. by rewrite Hv. }
  destruct (files w !! huskyDir) as [n|] eqn:Hhusky.
  - assert (Hrun : removeHusky e ctx w = remove e huskyDir w).
    { assert (Hpresent : present (files w) huskyDir = true)
        by (apply present_snoc; by rewrite Hhusky).
      unfold removeHusky, bind, existsSync.
      change (Path.join (IContext.target ctx) "./.husky") with huskyDir.
      by rewrite Hpresent. }
    destruct (remove_run e huskyDir w) as (out & w' & Hremove & Htrace & Hframe & Hout).
    exists out, w'. rewrite Hrun. split; [done|]. split; [done|].
    destruct (remove_refused e huskyDir (files w)) as [[code gone]|];
      destruct Hout as [-> Hfiles]; split_and!; try done.
    + split; [intros _; by split | by eexists].
    + intros err [= <-]. rewrite Hfiles, Hhusky. split; [by exists code | done].
    + split; [by intros [err ?] | by intros [_ [? ?]]].
    + intros _. rewrite Hfiles. split_and!.
      * by apply without_lookup_below.
      * intros _ q Hq. by apply without_lookup_below.
      * apply Hskip. rewrite Hfiles. by apply without_lookup_below.
  - exists (Return ()), w. rewrite Hskip by done. split_and!; try done.
    split; [by intros [err ?] | by intros [[? ?] _]].
Qed.




(** The git step always returns, whatever [git] does.  With a [.git] in the
    project root it does nothing at all; without one it spawns [git init]
    there once, and a failure of that process adds one error line to the
    log and leaves the files as they were. *)
Theorem initGit_outcomes (e : env) (w : world) :
  ∃ w',
    initGit e ctx w = (Return (), w') ∧
    (is_Some (files w !! gitDir) → w' = w) ∧
    (files w !! gitDir = None →
     match run_process e "git" ["init"] (Some (IContext.projectRoot ctx)) (files w) with
     | Some (_, fs') =>
         w' = {| files := fs';
                 trace := trace w ++ [Spawn "git" ["init"] (Some (IContext.projectRoot ctx))] |}
     | None =>
         w' = {| files := files w;
                 trace := trace w ++ [Spawn "git" ["init"] (Some (IContext.projectRoot ctx));
                                      Log error_level "Initial the git repo failed"] |}
     end) ∧
    (is_Some (files w' !! gitDir) → initGit e ctx w' = (Return (), w')).
Proof.
  assert (Hskip : ∀ v, is_Some (files v !! gitDir) → initGit e ctx v = (Return (), v)).
  { intros v Hv. apply present_snoc in Hv. unfold initGit, bind, existsSync.
    change (Path.join (IContext.projectRoot ctx) ".git") with gitDir. by rewrite Hv. }
  destruct (files w !! gitDir) as [n|] eqn:Hgit.
  - exists w. repeat split; [apply Hskip; by rewrite Hgit|done..|].
    intros _. apply Hskip. by rewrite Hgit.
  - set (spawn := Spawn "git" ["init"] (Some (IContext.projectRoot ctx))).
    set (w' := match run_process e "git" ["init"] (Some (IContext.projectRoot ctx))
                       (files w) with
               | Some (_, fs') => {| files := fs'; trace := trace w ++ [spawn] |}
               | None =>
                   {| files := files w;
                      trace := trace w ++ [spawn; Log error_level "Initial the git repo failed"] |}
               end).
    assert (Hrun : initGit e ctx w = (Return (), w')).
    { assert (Habsent : present (files w) gitDir = false) by by apply present_false_snoc.
      unfold initGit, bind, existsSync, try_catch, execa, skip, ret, logger, emit.
      change (Path.join (IContext.projectRoot ctx) ".git") with gitDir.
      rewrite Habsent. subst w'.
      destruct (run_process e "git" ["init"] (Some (IContext.projectRoot ctx)) (files w))
        as [[stdout fs']|]; [done|]. cbn [files trace]. by rewrite <- app_assoc. }
    exists w'. split_and!; [done|by intros [? ?]| |apply Hskip].
    intros _. subst w'.
    by destruct (run_process e "git" ["init"] (Some (IContext.projectRoot ctx)) (files w))
      as [[stdout fs']|].
Qed.

End Steps.

(** ** The events of a run, phase by phase *)

Ltac extends_phase := unfold afterProbe; emits_auto; done.

Section Runs.

Context (e : env).

Lemma emitted_Forall {A} (P : event → Prop) (m : M A) (w : world) :
  emits P m → Forall P (emitted m w).
Proof.
  intros Hm. apply Forall_forall. intros ev Hev. by eapply emits_emitted.
Qed.

Lemma emitted_bind {A B} (m : M A) (k : A → M B) (w : world) :
  emits (λ _, True) m → (∀ a, emits (λ _, True) (k a)) →
  emitted (bind m k) w
  = emitted m w ++ match m w with
                   | (Return a, w1) => emitted (k a) w1
                   | _ => []
                   end.
Proof.
  intros Hm Hk. unfold emitted, bind. destruct (Hm w) as (evs1 & E1 & _).
  destruct (m w) as [[a|err|code] w1]; cbn [snd] in E1 |- *.
  - destruct (Hk a w1) as (evs2 & E2 & _).
    rewrite E2, E1, <- app_assoc, !drop_app_length.
    rewrite (app_assoc (trace w)), drop_app_length. done.
  - by rewrite E1, drop_app_length, app_nil_r.
  - by rewrite E1, drop_app_length, app_nil_r.
Qed.

Lemma emitted_collaborator (ev : event) (who : string) (run : tree → option tree)
    (w : world) :
  emitted (collaborator ev who run) w = [ev].
Proof.
  unfold emitted, collaborator. destruct (run (files w)); cbn [snd trace];
    by rewrite drop_app_length.
Qed.

Lemma emitted_skip (w : world) : emitted skip w = [].
Proof. unfold emitted, skip, ret. cbn [snd]. by rewrite drop_all. Qed.

Lemma provision_afterProbe (args : IArgs.t) (defaultData : IDefaultData.t)
    (s : setup) (c : choices) :
  provision e args defaultData s c
  = (monorepoRoot ← (λ w, (Return (detectMonorepoRoot (files w) (target s)), w));
     major ← pnpmMajorVersion e c;
     afterProbe e args defaultData s c monorepoRoot major).
Proof. reflexivity. Qed.

(** The registry probe, run. *)
Lemma detectUserRegistry_run (w : world) :
  detectUserRegistry e w
  = match run_process e "npm" ["config"; "get"; "registry"] None (files w) with
    | Some (stdout, fs') =>
        (Return (if negb (isChinaRegistry (Js.trim stdout)) &&
                    negb (isNpmRegistry (Js.trim stdout))
                 then Some (Js.trim stdout) else None),
         {| files := fs';
            trace := trace w ++ [Spawn "npm" ["config"; "get"; "registry"] None] |})
    | None =>
        (Return None,
         {| files := files w;
            trace := trace w ++ [Spawn "npm" ["config"; "get"; "registry"] None] |})
    end.
Proof.
  unfold detectUserRegistry, try_catch, bind, execa, ret.
  by destruct (run_process e "npm" ["config"; "get"; "registry"] None (files w))
    as [[stdout fs']|].
Qed.

Lemma detectUserRegistry_Return (w : world) :
  ∃ found, detectUserRegistry e w = (Return found, (detectUserRegistry e w).2).
Proof.
  rewrite detectUserRegistry_run.
  destruct (run_process e "npm" ["config"; "get"; "registry"] None (files w))
    as [[stdout fs']|]; by eexists.
Qed.

(** What [prepare] computes. *)
Lemma prepare_run (cwd : path) (args : IArgs.t) (w : world) :
  ∃ s,
    prepare e cwd args w = (Return s, (detectUserRegistry e w).2) ∧
    (detectUserRegistry e w).1 = Return (customRegistry s) ∧
    name s = head (IArgs.positional args) ∧
    target s = match head (IArgs.positional args) with
               | Some n => if Js.truthy n then Path.join cwd n else cwd
               | None => cwd
               end ∧
    useDefaultData s = bool_decide (IArgs.default args = Some true) ∧
    useExternalTemplate s = match IArgs.template args with
                            | Some t => Js.truthy t
                            | None => false
                            end.
Proof.
  destruct (detectUserRegistry_Return w) as [found Hfound].
  unfold prepare. destruct (gitInfo e) as [username mail].
  eexists. split; [by rewrite (bind_run_Return _ _ _ _ _ Hfound)|].
  cbn. by rewrite Hfound.
Qed.

(** The events of a run are those of the prompts, then those of the probe
    of pnpm, then those of what follows it. *)
Lemma main_emitted_cases (cwd : path) (args : IArgs.t)
    (defaultData : option IDefaultData.t) (w : world) (ev : event) :
  ev ∈ emitted (main e cwd args defaultData) w →
  ev ∈ emitted (collect e cwd args (default (DEFAULT_DATA e) defaultData)) w ∨
  ∃ s c w1,
    collect e cwd args (default (DEFAULT_DATA e) defaultData) w = (Return (s, c), w1) ∧
    (ev ∈ emitted (pnpmMajorVersion e c) w1 ∨
     ∃ major w2,
       pnpmMajorVersion e c w1 = (Return major, w2) ∧
       ev ∈ emitted (afterProbe e args (default (DEFAULT_DATA e) defaultData) s c
                       (detectMonorepoRoot (files w1) (target s)) major) w2).
Proof.
  unfold main. set (dd := default (DEFAULT_DATA e) defaultData).
  rewrite emitted_bind; [|extends_trace|intros [s c]; extends_trace].
  intros Hev. apply elem_of_app in Hev as [Hev|Hev]; [by left|right].
  destruct (collect e cwd args dd w) as [[[s c]|err|code] w1] eqn:Hcollect;
    [|by apply elem_of_nil in Hev..].
  exists s, c, w1. split; [done|]. cbn [fst snd] in Hev.
  rewrite provision_afterProbe in Hev.
  rewrite emitted_bind in Hev; [|extends_trace|intros root; extends_phase].
  cbn [app] in Hev.
  assert (emitted (λ w, (Return (detectMonorepoRoot (files w) (target s)), w)) w1 = [])
    as Hread by (unfold emitted; cbn [snd]; by rewrite drop_all).
  rewrite Hread in Hev. cbn [app] in Hev.
  rewrite emitted_bind in Hev; [|extends_trace|intros major; extends_phase].
  apply elem_of_app in Hev as [Hev|Hev]; [by left|right].
  destruct (pnpmMajorVersion e c w1) as [[major|err|code] w2] eqn:Hmajor;
    [|by apply elem_of_nil in Hev..].
  by exists major, w2.
Qed.

(** The events after the probe of pnpm, with the conditions under which
    each of them is written. *)
Lemma emits_afterProbe (P : event → Prop) (args : IArgs.t) (defaultData : IDefaultData.t)
    (s : setup) (c : choices) (monorepoRoot : option path) (major : option Js.number) :
  (useExternalTemplate s = false →
   P (Generate (appTemplate c) (target s)
        (templateData e args defaultData s c monorepoRoot major))) →
  (shouldInitGit args = true →
   P (Spawn "git" ["init"]
        (Some (IContext.projectRoot (context monorepoRoot (target s))))) ∧
   P (Log error_level "Initial the git repo failed")) →
  (shouldInitGit args = false → P (Log info "Skip Git init")) →
  (installs args s = true → Js.strictEq major 8 = true →
   P (Spawn "pnpm" ["up"; "-L"] (Some (target s)))) →
  (installs args s = true → Js.strictEq major 8 = false →
   P (InstallWithNpmClient (npmClient c) (target s))) →
  (installs args s = false → P (Log info "Skip install deps")) →
  (installs args s = false → Js.strictEq major 8 = true →
   P (Log warn "You current using pnpm v8, it will install minimal version of dependencies") ∧
   P (Log warn "Recommended that you run pnpm up -L to install latest version of dependencies")) →
  emits P (afterProbe e args defaultData s c monorepoRoot major).
Proof.
  intros Hgen Hgit Hnogit Hup Hinstall Hskip Hwarn.
  unfold afterProbe, installs in *. apply emits_bind; [|intros _ _; apply emits_bind].
  - destruct (useExternalTemplate s); cbn [negb]; emits_auto. by apply Hgen.
  - unfold reconcile. do 2 (apply emits_bind; [emits_auto|intros _ _]).
    destruct (shouldInitGit args); emits_auto; [by apply Hgit..|by apply Hnogit].
  - intros _ _. unfold installDeps.
    destruct (negb (useDefaultData s) &&
              negb (bool_decide (IArgs.install args = Some false)));
      destruct (Js.strictEq major 8); emits_auto;
      first [by apply Hup | by apply Hinstall | by apply Hskip | by apply Hwarn].
Qed.

End Runs.

Section RunProperties.

Context (e : env) (cwd : path) (args : IArgs.t) (defaultData : option IDefaultData.t).

Local Abbreviation dd := (default (DEFAULT_DATA e) defaultData).
Local Abbreviation external :=
  (match IArgs.template args with
   | Some t => Js.truthy t
   | None => false
   end).

Lemma strictEq_spec (v : option Js.number) (k : Z) :
  Js.strictEq v k = true ↔ v = Some (Js.Num k).
Proof.
  destruct v as [[|z|negative]|]; cbn; try by split.
  rewrite Z.eqb_eq. split; [by intros -> | by intros [= ->]].
Qed.

Lemma strictEq_detectedPnpm8 (c : choices) (w1 w2 : world) (major : option Js.number) :
  pnpmMajorVersion e c w1 = (Return major, w2) →
  Js.strictEq major 8 = true ↔ detectedPnpm8 e c w1.
Proof.
  intros Hmajor. rewrite strictEq_spec. unfold detectedPnpm8.
  apply pnpmMajorVersion_Return in Hmajor
    as [(Hpnpm & stdout & fs' & Hrun & ->)|[Hother ->]].
  - rewrite Hrun. split.
    + intros [= Height]. split; [done|]. by exists stdout, fs'.
    + intros (_ & stdout' & fs'' & [= <- _] & Height). by rewrite Height.
  - split; [done | by intros [? _]].
Qed.

Lemma collect_setup (w w1 : world) (s : setup) (c : choices) :
  collect e cwd args dd w = (Return (s, c), w1) →
  useDefaultData s = bool_decide (IArgs.default args = Some true) ∧
  useExternalTemplate s = external.
Proof.
  intros Hcollect. eapply prepare_returns, collect_returns. by exists w, w1.
Qed.

Lemma installs_spec (s : setup) :
  useDefaultData s = bool_decide (IArgs.default args = Some true) →
  installs args s = true ↔
  IArgs.default args ≠ Some true ∧ IArgs.install args ≠ Some false.
Proof.
  intros Hs. unfold installs. rewrite Hs.
  by rewrite andb_true_iff, !negb_true_iff, !bool_decide_eq_false.
Qed.

End RunProperties.

(** ** Which installation command runs *)

(** Every installation that a run starts is one of two: [pnpm up -L] in the
    target directory when the selected package manager is pnpm and the
    probe detected major version 8, and otherwise the install command of
    the selected package manager in the target directory. *)
Theorem install_command (e : env) (cwd : path) (args : IArgs.t)
    (defaultData : option IDefaultData.t) (w : world) (ev : event) :
  ev ∈ emitted (main e cwd args defaultData) w → isInstall ev →
  ∃ s c w1,
    collect e cwd args (default (DEFAULT_DATA e) defaultData) w = (Return (s, c), w1) ∧
    ((detectedPnpm8 e c w1 ∧ ev = Spawn "pnpm" ["up"; "-L"] (Some (target s))) ∨
     (¬ detectedPnpm8 e c w1 ∧ ev = InstallWithNpmClient (npmClient c) (target s))).
Proof.
  intros Hev Hinstall.
  apply main_emitted_cases in Hev as [Hev|(s & c & w1 & Hcollect & [Hev|Hev])].
  - exfalso. revert Hinstall.
    eapply (emits_emitted (λ ev, ¬ isInstall ev)); [|exact Hev].
    apply emits_collect; [by intros [? _] | by intros ? ? ? []].
  - exfalso. revert Hinstall.
    eapply (emits_emitted (λ ev, ¬ isInstall ev)); [|exact Hev].
    apply emits_pnpmMajorVersion. by intros [_ ?].
  - destruct Hev as (major & w2 & Hmajor & Hev). exists s, c, w1. split; [done|].
    pose proof (strictEq_detectedPnpm8 e c w1 w2 major Hmajor) as Height.
    revert Hinstall.
    eapply (emits_emitted
              (λ ev, isInstall ev →
                 (detectedPnpm8 e c w1 ∧ ev = Spawn "pnpm" ["up"; "-L"] (Some (target s))) ∨
                 (¬ detectedPnpm8 e c w1 ∧
                  ev = InstallWithNpmClient (npmClient c) (target s))));
      [|exact Hev].
    apply emits_afterProbe;
      try (intros; cbn [isInstall] in *; done);
      try (intros; split; cbn [isInstall]; by intros []).
    + intros _ H8 _. left. split; [by apply Height | done].
    + intros _ H8 _. right. split; [|done].
      intros Hdetected. apply Height in Hdetected. congruence.
Qed.

(** ** The advisory for pnpm 8 *)

(** A run writes a warning to the log only when the installation is
    skipped (the use-defaults flag is set or the install flag is [false]),
    the selected package manager is pnpm and the probe detected major
    version 8; the warning is one of the two lines of the advisory. *)
Theorem pnpm8_advisory (e : env) (cwd : path) (args : IArgs.t)
    (defaultData : option IDefaultData.t) (w : world) (message : string) :
  Log warn message ∈ emitted (main e cwd args defaultData) w →
  (IArgs.default args = Some true ∨ IArgs.install args = Some false) ∧
  (message = "You current using pnpm v8, it will install minimal version of dependencies" ∨
   message = "Recommended that you run pnpm up -L to install latest version of dependencies") ∧
  ∃ s c w1,
    collect e cwd args (default (DEFAULT_DATA e) defaultData) w = (Return (s, c), w1) ∧
    detectedPnpm8 e c w1.
Proof.
  intros Hev.
  apply main_emitted_cases in Hev as [Hev|(s & c & w1 & Hcollect & [Hev|Hev])].
  - exfalso.
    eapply (emits_emitted (λ ev, ∀ l m, ev ≠ Log l m)); [|exact Hev|done].
    by apply emits_collect.
  - exfalso.
    eapply (emits_emitted (λ ev, ∀ l m, ev ≠ Log l m)); [|exact Hev|done].
    by apply emits_pnpmMajorVersion.
  - destruct Hev as (major & w2 & Hmajor & Hev).
    pose proof (strictEq_detectedPnpm8 e c w1 w2 major Hmajor) as Height.
    destruct (collect_setup e cwd args defaultData w w1 s c Hcollect) as [Hs _].
    pose proof (installs_spec args s Hs) as Hinstalls.
    cut ((installs args s = false ∧ Js.strictEq major 8 = true) ∧
         (message = "You current using pnpm v8, it will install minimal version of dependencies" ∨
          message = "Recommended that you run pnpm up -L to install latest version of dependencies")).
    { intros [[Hskip H8] Hmsg]. split_and!; [|done|].
      - destruct (decide (IArgs.default args = Some true)) as [?|Hd]; [by left|right].
        destruct (decide (IArgs.install args = Some false)) as [?|Hi]; [done|].
        assert (installs args s = true) by by apply Hinstalls. congruence.
      - exists s, c, w1. split; [done|]. by apply Height. }
    eapply (emits_emitted
              (λ ev, ∀ m, ev = Log warn m →
                 (installs args s = false ∧ Js.strictEq major 8 = true) ∧
                 (m = "You current using pnpm v8, it will install minimal version of dependencies" ∨
                  m = "Recommended that you run pnpm up -L to install latest version of dependencies"))
              _ _ _ _ Hev message eq_refl).
    Unshelve.
    apply emits_afterProbe; try (intros; done); try (intros; split; intros; done).
    intros Hskip H8. split; intros m [= <-]; split; auto.
Qed.

(** ** Where git is initialized *)

(** A run spawns [git] only as [git init], only when the git flag is not
    [false], and in the project root: the workspace root that the probe
    found in the tree the prompts left, or else the target; either is the
    target or an ancestor of it.  The notice that git is skipped is written
    only when the git flag is [false], and the error line of a failed
    [git init] only when it is not. *)
Theorem git_init_in_project_root (e : env) (cwd : path) (args : IArgs.t)
    (defaultData : option IDefaultData.t) (w : world) (ev : event) :
  ev ∈ emitted (main e cwd args defaultData) w →
  (∀ argv dir, ev = Spawn "git" argv dir →
     argv = ["init"] ∧ IArgs.git args ≠ Some false ∧
     ∃ s c w1,
       collect e cwd args (default (DEFAULT_DATA e) defaultData) w = (Return (s, c), w1) ∧
       dir = Some (default (target s) (detectMonorepoRoot (files w1) (target s))) ∧
       default (target s) (detectMonorepoRoot (files w1) (target s)) `prefix_of` target s) ∧
  (ev = Log info "Skip Git init" → IArgs.git args = Some false) ∧
  (ev = Log error_level "Initial the git repo failed" → IArgs.git args ≠ Some false).
Proof.
  intros Hev.
  assert (Hflag : shouldInitGit args = true ↔ IArgs.git args ≠ Some false).
  { unfold shouldInitGit. by rewrite negb_true_iff, bool_decide_eq_false. }
  set (P := λ ev : event,
    (∀ argv dir, ev = Spawn "git" argv dir →
       argv = ["init"] ∧ IArgs.git args ≠ Some false ∧
       ∃ s c w1,
         collect e cwd args (default (DEFAULT_DATA e) defaultData) w = (Return (s, c), w1) ∧
         dir = Some (default (target s) (detectMonorepoRoot (files w1) (target s))) ∧
         default (target s) (detectMonorepoRoot (files w1) (target s)) `prefix_of` target s) ∧
    (ev = Log info "Skip Git init" → IArgs.git args = Some false) ∧
    (ev = Log error_level "Initial the git repo failed" → IArgs.git args ≠ Some false)).
  change (P ev).
  apply main_emitted_cases in Hev as [Hev|(s & c & w1 & Hcollect & [Hev|Hev])].
  - eapply emits_emitted; [|exact Hev].
    apply emits_collect; [|intros ? ? ?]; subst P; split_and!; done.
  - eapply emits_emitted; [|exact Hev].
    apply emits_pnpmMajorVersion; subst P; split_and!; done.
  - destruct Hev as (major & w2 & Hmajor & Hev).
    eapply emits_emitted; [|exact Hev].
    apply emits_afterProbe; subst P; cbv beta; intros;
      try (split_and!; by try done).
    + split; split_and!; try done.
      * intros argv dir [= <- <-]. split_and!; [done|by apply Hflag|].
        exists s, c, w1. split_and!; [done..|].
        destruct (detectMonorepoRoot (files w1) (target s)) as [root|] eqn:Hroot; [|done].
        cbn. etrans; [by eapply detectMonorepoRoot_above | apply dirname_prefix].
      * intros _. by apply Hflag.
    + split_and!; try done. intros _.
      destruct (IArgs.git args) as [[]|] eqn:Hgit; try done;
        unfold shouldInitGit in *; rewrite Hgit in *; done.
Qed.

(** ** The two ways to generate *)

Section Paths.

Context (e : env) (cwd : path) (args : IArgs.t).

(** Before the generation, a template is unpacked only when [--template]
    names one, and it is that one. *)
Lemma emits_collect_unpack (defaultData : IDefaultData.t) :
  emits (λ ev, ∀ t d r, ev = UnpackTemplate t d r →
           IArgs.template args = Some t ∧ Js.truthy t = true)
    (collect e cwd args defaultData).
Proof.
  unfold collect. apply emits_bind; [emits_auto; done|]. intros s Hs.
  apply prepare_returns in Hs as [_ Hs].
  apply emits_bind; [|intros; emits_auto]. unfold choose.
  destruct (useExternalTemplate s) eqn:Hext; [|emits_auto].
  emits_auto. intros t d r [= <- _ _].
  by destruct (IArgs.template args).
Qed.

End Paths.

(** The two ways to generate exclude each other: a run unpacks a template
    only when [--template] names a (non-empty) one, and then that one, and
    it calls the generator of the internal templates only when
    [--template] names none. *)
Theorem generation_paths_exclusive (e : env) (cwd : path) (args : IArgs.t)
    (defaultData : option IDefaultData.t) (w : world) :
  (∀ t d r, UnpackTemplate t d r ∈ emitted (main e cwd args defaultData) w →
            IArgs.template args = Some t ∧ t ≠ "") ∧
  (∀ template target data,
     Generate template target data ∈ emitted (main e cwd args defaultData) w →
     IArgs.template args = None ∨ IArgs.template args = Some "").
Proof.
  split.
  - intros t d r Hev.
    cut (IArgs.template args = Some t ∧ Js.truthy t = true).
    { intros [Ht Htruthy]. split; [done|]. by intros ->. }
    apply main_emitted_cases in Hev as [Hev|(s & c & w1 & Hcollect & [Hev|Hev])].
    + by eapply (emits_emitted _ _ _ _ (emits_collect_unpack e cwd args _) Hev).
    + exfalso. eapply (emits_emitted (λ ev, ∀ t d r, ev ≠ UnpackTemplate t d r));
        [|exact Hev|done]. by apply emits_pnpmMajorVersion.
    + destruct Hev as (major & w2 & _ & Hev). exfalso.
      eapply (emits_emitted (λ ev, ∀ t d r, ev ≠ UnpackTemplate t d r));
        [|exact Hev|done].
      apply emits_afterProbe; intros; by try split.
  - intros template target data Hev.
    apply main_emitted_cases in Hev as [Hev|(s & c & w1 & Hcollect & [Hev|Hev])].
    + exfalso. eapply (emits_emitted (λ ev, ∀ t g d, ev ≠ Generate t g d));
        [|exact Hev|done]. by apply emits_collect.
    + exfalso. eapply (emits_emitted (λ ev, ∀ t g d, ev ≠ Generate t g d));
        [|exact Hev|done]. by apply emits_pnpmMajorVersion.
    + destruct Hev as (major & w2 & _ & Hev).
      destruct (collect_setup e cwd args defaultData w w1 s c Hcollect) as [_ Hs].
      cut (useExternalTemplate s = false).
      { rewrite Hs. destruct (IArgs.template args) as [[|? ?]|]; by auto. }
      eapply (emits_emitted (λ ev, ∀ t g d, ev = Generate t g d →
                                     useExternalTemplate s = false)
                _ _ _ _ Hev _ _ _ eq_refl).
      Unshelve.
      apply emits_afterProbe; intros; try split; intros; done.
Qed.

(** ** The order of the pipeline *)

Section Order.

Context (e : env).

Lemma emits_installDeps_stage (args : IArgs.t) (s : setup) (c : choices)
    (major : option Js.number) :
  emits isInstallStage (installDeps e args s c major).
Proof. emits_auto; cbn; auto. Qed.

Lemma emits_reconcile_stage (args : IArgs.t) (ctx : IContext.t) (husky : bool) :
  emits isReconcileEvent (reconcile e args ctx husky).
Proof. apply emits_reconcile; cbn; auto. Qed.

Lemma Forall_emitted_Return {A B} (P : event → Prop) (o : outcome A * world)
    (k : A → M B) :
  (∀ a, emits P (k a)) →
  Forall P match o with
           | (Return a, w1) => emitted (k a) w1
           | _ => []
           end.
Proof.
  intros Hk. destruct o as [[a|err|code] w1]; [|constructor..].
  by apply emitted_Forall.
Qed.

End Order.

Lemma pipeline_until (probes generation steps : list event) :
  Forall isSetupEvent probes → Forall isGenerate generation →
  (length generation ≤ 1)%nat → Forall isReconcileEvent steps →
  ∃ probes' generation' steps' installation,
    probes ++ generation ++ steps = probes' ++ generation' ++ steps' ++ installation ∧
    Forall isSetupEvent probes' ∧
    Forall isGenerate generation' ∧ (length generation' ≤ 1)%nat ∧
    Forall isReconcileEvent steps' ∧
    Forall isInstallStage installation.
Proof.
  intros. exists probes, generation, steps, []. by rewrite app_nil_r.
Qed.

(** The events of every run come in the order of the pipeline: first the
    probes and the unpacking of an external template, then at most one call
    of the generator, then the steps on the generated tree ([git init] and
    its log lines), then the installation or its notices.  A run that ends
    early writes a prefix of this. *)
Theorem pipeline_order (e : env) (cwd : path) (args : IArgs.t)
    (defaultData : option IDefaultData.t) (w : world) :
  ∃ probes generation steps installation,
    emitted (main e cwd args defaultData) w
    = probes ++ generation ++ steps ++ installation ∧
    Forall isSetupEvent probes ∧
    Forall isGenerate generation ∧ (length generation ≤ 1)%nat ∧
    Forall isReconcileEvent steps ∧
    Forall isInstallStage installation.
Proof.
  set (dd := default (DEFAULT_DATA e) defaultData).
  assert (Hsetup1 : Forall isSetupEvent (emitted (collect e cwd args dd) w)).
  { apply emitted_Forall, emits_collect; cbn; auto. }
  unfold main. fold dd.
  rewrite emitted_bind; [|extends_trace|intros [s c]; extends_trace].
  destruct (collect e cwd args dd w) as [[[s c]|err|code] w1] eqn:Hcollect.
  2,3: destruct (pipeline_until (emitted (collect e cwd args dd) w) [] [])
         as (p & g & st & i & Heq & Hrest); [done|constructor|cbn; lia|constructor|];
       exists p, g, st, i; split; [rewrite <- Heq; by rewrite ?app_nil_r | exact Hrest].
  cbn [fst snd]. rewrite provision_afterProbe.
  rewrite emitted_bind; [|extends_trace|intros root; extends_phase].
  assert (emitted (λ w, (Return (detectMonorepoRoot (files w) (target s)), w)) w1 = [])
    as -> by (unfold emitted; cbn [snd]; by rewrite drop_all).
  cbn [app]. set (root := detectMonorepoRoot (files w1) (target s)).
  rewrite emitted_bind; [|extends_trace|intros major; extends_phase].
  assert (Hsetup2 : Forall isSetupEvent
                      (emitted (collect e cwd args dd) w ++
                       emitted (pnpmMajorVersion e c) w1)).
  { apply Forall_app. split; [done|].
    apply emitted_Forall, emits_pnpmMajorVersion; cbn; auto. }
  rewrite app_assoc.
  destruct (pnpmMajorVersion e c w1) as [[major|err|code] w2] eqn:Hmajor.
  2,3: destruct (pipeline_until (emitted (collect e cwd args dd) w ++
                                 emitted (pnpmMajorVersion e c) w1) [] [])
         as (p & g & st & i & Heq & Hrest); [done|constructor|cbn; lia|constructor|];
       exists p, g, st, i; split; [rewrite <- Heq; by rewrite ?app_nil_r | exact Hrest].
  unfold afterProbe.
  rewrite emitted_bind; [|extends_trace|intros []; extends_trace].
  set (gen := if negb (useExternalTemplate s)
              then injectInternalTemplateFiles e c (target s)
                     (templateData e args dd s c root major)
              else skip).
  assert (Hgen : Forall isGenerate (emitted gen w2) ∧ (length (emitted gen w2) ≤ 1)%nat).
  { subst gen. destruct (negb (useExternalTemplate s)).
    - unfold injectInternalTemplateFiles. rewrite emitted_collaborator.
      split; [by repeat constructor | done].
    - rewrite emitted_skip. split; [constructor | cbn; lia]. }
  destruct Hgen as [Hgen Hone].
  destruct (gen w2) as [[[]|err|code] w3] eqn:Hgenerated.
  2,3: destruct (pipeline_until (emitted (collect e cwd args dd) w ++
                                 emitted (pnpmMajorVersion e c) w1) (emitted gen w2) [])
         as (p & g & st & i & Heq & Hrest); [done|done|done|constructor|];
       exists p, g, st, i; split; [rewrite <- Heq; by rewrite ?app_nil_r | exact Hrest].
  rewrite emitted_bind; [|extends_trace|intros []; extends_trace].
  eexists _, _, _, _. split; [reflexivity|].
  split_and!; [done..| |].
  - apply emitted_Forall, emits_reconcile_stage.
  - apply Forall_emitted_Return. intros []. apply emits_installDeps_stage.
Qed.

(** ** Cancelled prompts *)

Section Exits.

Lemma neverExits_ret {A} (a : A) : neverExits (ret a).
Proof. by intros w code w'. Qed.

Lemma neverExits_bind {A B} (m : M A) (k : A → M B) :
  neverExits m → (∀ a, neverExits (k a)) → neverExits (bind m k).
Proof.
  intros Hm Hk w code w'. unfold bind.
  destruct (m w) as [[a|err|c] w1] eqn:Hmw; [apply Hk|done|].
  intros [= -> ->]. by apply (Hm w code w').
Qed.

Lemma neverExits_try_catch {A} (m : M A) (handler : error → M A) :
  neverExits m → (∀ err, neverExits (handler err)) → neverExits (try_catch m handler).
Proof.
  intros Hm Hh w code w'. unfold try_catch.
  destruct (m w) as [[a|err|c] w1] eqn:Hmw; [done|apply Hh|].
  intros [= -> ->]. by apply (Hm w code w').
Qed.

Lemma neverExits_execa (e : env) (file : string) (argv : list string) (cwd : option path) :
  neverExits (execa e file argv cwd).
Proof. intros w code w'. unfold execa. by repeat case_match. Qed.

Lemma neverExits_collaborator (ev : event) (who : string) (run : tree → option tree) :
  neverExits (collaborator ev who run).
Proof. intros w code w'. unfold collaborator. by repeat case_match. Qed.

Lemma neverExits_copyFile (e : env) (src dest : path) : neverExits (copyFile e src dest).
Proof. intros w code w'. unfold copyFile. by repeat case_match. Qed.

Lemma neverExits_remove (e : env) (p : path) : neverExits (remove e p).
Proof. intros w code w'. unfold remove. by repeat case_match. Qed.

End Exits.

Ltac never_exits_step :=
  lazymatch goal with
  | |- neverExits (bind _ _) => apply neverExits_bind; [|intros ?]
  | |- neverExits (try_catch _ _) => apply neverExits_try_catch; [|intros ?]
  | |- neverExits (ret _) => apply neverExits_ret
  | |- neverExits skip => apply neverExits_ret
  | |- neverExits (execa _ _ _ _) => apply neverExits_execa
  | |- neverExits (collaborator _ _ _) => apply neverExits_collaborator
  | |- neverExits (copyFile _ _ _) => apply neverExits_copyFile
  | |- neverExits (remove _ _) => apply neverExits_remove
  | |- neverExits (if ?b then _ else _) => destruct b
  | |- neverExits _ => by intros ? ? ?
  end.

Ltac never_exits :=
  repeat first
    [ progress unfold provision, reconcile, installDeps, pnpmMajorVersion,
        injectInternalTemplateFiles, installWithPnpm8, installWithNpmClient,
        unpackTemplate, removeHusky, moveNpmrc, initGit, getPnpmMajorVersion,
        detectUserRegistry
    | never_exits_step ].

Section Cancel.

Context (e : env).

(** After the prompts nothing ends the process. *)
Lemma neverExits_provision (args : IArgs.t) (defaultData : IDefaultData.t)
    (s : setup) (c : choices) :
  neverExits (provision e args defaultData s c).
Proof. never_exits. Qed.

Lemma bind_Exit {A B} (m : M A) (k : A → M B) (w w' : world) (code : Z) :
  bind m k w = (Exit code, w') →
  m w = (Exit code, w') ∨ ∃ a w1, m w = (Return a, w1) ∧ k a w1 = (Exit code, w').
Proof.
  unfold bind. destruct (m w) as [[a|err|c] w1]; [|done|].
  - intros Hk. right. by exists a, w1.
  - intros [= -> ->]. by left.
Qed.

(** The [switch] ends the process only on a cancelled prompt, with code 1
    and before it has done anything. *)
Lemma choose_Exit (args : IArgs.t) (s : setup) (c : choices) (w w' : world) (code : Z) :
  choose e args s c w = (Exit code, w') →
  code = 1%Z ∧ w' = w ∧
  (useExternalTemplate s = true ∨ useDefaultData s = false) ∧
  (answer_appTemplate e = None ∨ answer_npmClient e = None ∨
   (∃ options, answer_registry e options = None) ∨
   (∃ placeholder, answer_pluginName e placeholder = None)).
Proof.
  unfold choose, internalTemplatePrompts, selectAppTemplate, selectNpmClient,
    selectRegistry, select, unpackTemplate, collaborator, bind, ret, process_exit.
  repeat case_match; intros [= <- <-]; simplify_eq; split_and!; eauto 6.
  all: destruct (useDefaultData s); by eauto.
Qed.

End Cancel.

(** A run ends the process only on a cancelled prompt: the exit code is 1,
    prompts were due (a template was named or the use-defaults flag was not
    set), one of the prompts had no answer, and the registry probe is all
    that has happened. *)
Theorem exit_only_on_cancel (e : env) (cwd : path) (args : IArgs.t)
    (defaultData : option IDefaultData.t) (w w' : world) (code : Z) :
  main e cwd args defaultData w = (Exit code, w') →
  code = 1%Z ∧
  w' = (detectUserRegistry e w).2 ∧
  ((∃ t, IArgs.template args = Some t ∧ t ≠ "") ∨ IArgs.default args ≠ Some true) ∧
  (answer_appTemplate e = None ∨ answer_npmClient e = None ∨
   (∃ options, answer_registry e options = None) ∨
   (∃ placeholder, answer_pluginName e placeholder = None)).
Proof.
  unfold main. intros Hmain.
  apply bind_Exit in Hmain as [Hcollect|([s c] & w1 & _ & Hprovision)];
    [|by apply neverExits_provision in Hprovision].
  unfold collect in Hcollect.
  destruct (prepare_run e cwd args w) as (s & Hprepare & _ & _ & _ & Hdefault & Hexternal).
  rewrite (bind_run_Return _ _ _ _ _ Hprepare) in Hcollect.
  apply bind_Exit in Hcollect as [Hchoose|(c & w2 & _ & Hret)]; [|done].
  apply choose_Exit in Hchoose as (-> & -> & Hdue & Hanswer).
  split_and!; [done..| |done].
  destruct Hdue as [Hext|Hdef].
  - left. rewrite Hexternal in Hext.
    destruct (IArgs.template args) as [t|]; [|done]. exists t. split; [done|].
    by intros ->.
  - right. rewrite Hdefault in Hdef. by apply bool_decide_eq_false in Hdef.
Qed.

(** ** Runs with the use-defaults flag *)

Section Defaults.

Context (e : env) (cwd : path) (args : IArgs.t) (defaultData : IDefaultData.t).

(** With the use-defaults flag and no template the [switch] does nothing:
    the prompted variables keep their initial values. *)
Lemma collect_default (w : world) :
  IArgs.default args = Some true →
  match IArgs.template args with
  | Some t => Js.truthy t
  | None => false
  end = false →
  ∃ s, prepare e cwd args w = (Return s, (detectUserRegistry e w).2) ∧
       collect e cwd args defaultData w
       = (Return (s, initialChoices s defaultData), (detectUserRegistry e w).2).
Proof.
  intros Hdefault Htemplate.
  destruct (prepare_run e cwd args w) as (s & Hprepare & _ & _ & _ & Hd & Hx).
  exists s. split; [done|]. unfold collect.
  rewrite (bind_run_Return _ _ _ _ _ Hprepare). unfold choose.
  rewrite Hx, Htemplate, Hd, Hdefault. by rewrite bool_decide_eq_true_2.
Qed.

End Defaults.

(** With the use-defaults flag and no template no prompt is asked: the run
    does not depend on the answers. *)
Theorem defaults_ask_nothing (e e' : env) (cwd : path) (args : IArgs.t)
    (defaultData : option IDefaultData.t) (w : world) :
  IArgs.default args = Some true →
  match IArgs.template args with
  | Some t => Js.truthy t
  | None => false
  end = false →
  sameButAnswers e e' →
  main e cwd args defaultData w = main e' cwd args defaultData w.
Proof.
  intros Hdefault Htemplate Hsame.
  destruct e as [v g r i u gen cp rm a1 a2 a3 a4],
    e' as [v' g' r' i' u' gen' cp' rm' b1 b2 b3 b4].
  destruct Hsame as (Hv & Hg & Hr & Hi & Hu & Hgen & Hcp & Hrm).
  cbn in Hv, Hg, Hr, Hi, Hu, Hgen, Hcp, Hrm.
  subst v' g' r' i' u' gen' cp' rm'.
  set (e := mkEnv v g r i u gen cp rm a1 a2 a3 a4).
  set (e' := mkEnv v g r i u gen cp rm b1 b2 b3 b4).
  unfold main.
  destruct (collect_default e cwd args (default (DEFAULT_DATA e) defaultData) w
              Hdefault Htemplate) as (s & Hs & Hcollect).
  destruct (collect_default e' cwd args (default (DEFAULT_DATA e') defaultData) w
              Hdefault Htemplate) as (s' & Hs' & Hcollect').
  change (prepare e' cwd args w) with (prepare e cwd args w) in Hs'.
  change (detectUserRegistry e' w) with (detectUserRegistry e w) in Hs', Hcollect'.
  assert (s' = s) as -> by congruence.
  rewrite (bind_run_Return _ _ _ _ _ Hcollect), (bind_run_Return _ _ _ _ _ Hcollect').
  reflexivity.
Qed.

(** With the use-defaults flag and no template the package manager is pnpm,
    whatever the default data name: when [pnpm --version] cannot be run
    after the registry probe, the run ends with the error of the probe of
    pnpm and nothing else has happened. *)
Theorem defaults_need_pnpm (e : env) (cwd : path) (args : IArgs.t)
    (defaultData : option IDefaultData.t) (w : world) :
  IArgs.default args = Some true →
  match IArgs.template args with
  | Some t => Js.truthy t
  | None => false
  end = false →
  run_process e "pnpm" ["--version"] None (files (detectUserRegistry e w).2) = None →
  main e cwd args defaultData w
  = (Throw (JsError "Please install pnpm first" (ExecaError "pnpm" ["--version"])),
     {| files := files (detectUserRegistry e w).2;
        trace := trace (detectUserRegistry e w).2 ++ [Spawn "pnpm" ["--version"] None] |}).
Proof.
  intros Hdefault Htemplate Hrun. unfold main.
  destruct (collect_default e cwd args (default (DEFAULT_DATA e) defaultData) w
              Hdefault Htemplate) as (s & _ & Hcollect).
  rewrite (bind_run_Return _ _ _ _ _ Hcollect). cbn [fst snd].
  rewrite provision_afterProbe. erewrite bind_run_Return by reflexivity.
  apply bind_run_Throw. unfold pnpmMajorVersion, initialChoices. cbn [npmClient].
  rewrite decide_True by done.
  apply bind_run_Throw. by apply getPnpmMajorVersion_fails.
Qed.

(** The default data may name npm; without pnpm the run fails all the
    same. *)
Lemma defaults_need_pnpm_example :
  (main (exampleEnv None) ["a"] defaultArgs
     (Some {| IDefaultData.pluginName := None; IDefaultData.version := "4.0.0";
              IDefaultData.npmClient := ENpmClient.npm;
              IDefaultData.registry := ERegistry_npm;
              IDefaultData.author := ""; IDefaultData.email := "";
              IDefaultData.withHusky := false; IDefaultData.extraNpmrc := "";
              IDefaultData.appTemplate := None |}) emptyWorld).1
  = Throw (JsError "Please install pnpm first" (ExecaError "pnpm" ["--version"])).
Proof.
  rewrite (defaults_need_pnpm (exampleEnv None) ["a"] defaultArgs); reflexivity.
Defined.

(** Two environments with different answers. *)
Lemma defaults_ask_nothing_example :
  main (exampleEnv (Some "9.1.0")) ["a"] defaultArgs None emptyWorld
  = main {| pkg_version := "4.0.0";
            gitInfo := ("umi", "umi@example.com");
            run_process := run_process (exampleEnv (Some "9.1.0"));
            install_deps := install_deps (exampleEnv (Some "9.1.0"));
            unpack := unpack (exampleEnv (Some "9.1.0"));
            generate := generate (exampleEnv (Some "9.1.0"));
            copy_refused := λ _ _ _, None;
            remove_refused := λ _ _, None;
            answer_appTemplate := None;
            answer_npmClient := Some ENpmClient.yarn;
            answer_registry := λ _, None;
            answer_pluginName := λ _, None |} ["a"] defaultArgs None emptyWorld.
Proof. apply defaults_ask_nothing; [reflexivity|reflexivity|by repeat split]. Defined.

(** ** The options of the registry prompt *)

(** The registry prompt always offers npm and Taobao, in this order, and
    then at most the registry the probe found.  That third option is there
    exactly when [npm config get registry] could be run and its trimmed
    output is not empty and contains none of the known hosts: an empty
    configuration counts as found by the probe and is still not offered. *)
Theorem registry_prompt_options (e : env) (w : world) :
  ∃ found w',
    detectUserRegistry e w = (Return found, w') ∧
    (registryOptions found = [ERegistry_npm; ERegistry_taobao] ∨
     ∃ url, registryOptions found = [ERegistry_npm; ERegistry_taobao; customUrl url]) ∧
    (∀ url, customUrl url ∈ registryOptions found ↔
       url ≠ "" ∧
       ∃ stdout fs',
         run_process e "npm" ["config"; "get"; "registry"] None (files w)
           = Some (stdout, fs') ∧
         url = Js.trim stdout ∧
         ∀ host, host ∈ npmRegistries ++ chinaRegistries → ¬ Substring host url) ∧
    (run_process e "npm" ["config"; "get"; "registry"] None (files w)
       = Some ("", files w) → found = Some "").
Proof.
  rewrite detectUserRegistry_run.
  assert (Hhosts : ∀ reg,
    negb (isChinaRegistry reg) && negb (isNpmRegistry reg) = true ↔
    ∀ host, host ∈ npmRegistries ++ chinaRegistries → ¬ Substring host reg).
  { intros reg. rewrite andb_true_iff, !negb_true_iff.
    unfold isChinaRegistry, isNpmRegistry. rewrite !some_includes. split.
    - intros [Hc Hn] host Hhost. apply elem_of_app in Hhost as [?|?]; auto.
    - intros Hall. split; intros host Hhost; apply Hall, elem_of_app; auto. }
  assert (Htwo : ∀ url, customUrl url ∈ [ERegistry_npm; ERegistry_taobao] → False).
  { intros url Hin. apply elem_of_cons in Hin as [?|Hin]; [done|].
    apply elem_of_cons in Hin as [?|Hin]; [done|]. by apply elem_of_nil in Hin. }
  destruct (run_process e "npm" ["config"; "get"; "registry"] None (files w))
    as [[stdout fs']|]; eexists _, _; (split; [reflexivity|]).
  - pose proof (Hhosts (Js.trim stdout)) as Hthis.
    destruct (negb (isChinaRegistry (Js.trim stdout)) &&
              negb (isNpmRegistry (Js.trim stdout))) eqn:Hcond.
    + destruct (Js.trim stdout) as [|ch rest] eqn:Hurl; cbn [registryOptions Js.truthy app].
      * split_and!; [by left| |done].
        intros url. split; [by intros ?%Htwo|].
        intros (Hne & out & fs'' & [= <- _] & -> & _). by rewrite Hurl in Hne.
      * split_and!; [right; by eexists| |].
        -- intros url. split.
           ++ intros Hin. apply elem_of_cons in Hin as [?|Hin]; [done|].
              apply elem_of_cons in Hin as [?|Hin]; [done|].
              apply elem_of_cons in Hin as [[= ->]|Hin]; [|by apply elem_of_nil in Hin].
              split; [done|]. exists stdout, fs'. split_and!; [done..|].
              by apply Hthis.
           ++ intros (_ & out & fs'' & [= <- _] & -> & _). rewrite Hurl.
              do 2 (apply elem_of_cons; right). apply elem_of_cons. by left.
        -- intros [= -> _]. by vm_compute in Hurl.
    + cbn [registryOptions app]. split_and!; [by left| |].
      * intros url. split; [by intros ?%Htwo|].
        intros (_ & out & fs'' & [= <- _] & -> & Hnone).
        apply Hthis in Hnone. done.
      * intros [= -> _]. by vm_compute in Hcond.
  - cbn [registryOptions app]. split_and!; [by left| |done].
    intros url. split; [by intros ?%Htwo|].
    by intros (_ & out & fs'' & ? & _).
Qed.

(** ** The target directory *)

Section Target.

Lemma split_plain (n : string) : ¬ Substring "/" n → Js.split "/" n = [n].
Proof.
  induction n as [|ch n IH]; intros Hslash; [done|]. cbn [Js.split].
  destruct (Ascii.eqb_spec ch "/") as [->|Hch].
  - destruct Hslash. by exists "", n.
  - rewrite IH; [done|]. intros (before & after & Hn). apply Hslash.
    exists (String ch before), after. by rewrite Hn.
Qed.

Lemma join_plain (base : path) (n : string) :
  plainName n → Path.join base n = base ++ [n].
Proof.
  intros (Hempty & Hdot & Hdots & Hslash). unfold Path.join.
  rewrite split_plain by done. cbn [fold_left]. unfold Path.step.
  rewrite decide_False by by intros [?|?]. by rewrite decide_False.
Qed.

End Target.

(** With a name of one path segment as the first argument, the target is
    the directory of that name in the working directory, and the workspace
    probe of the target starts at the working directory: it finds the
    nearest package manifest from there upward. *)
Theorem target_of_plain_name (e : env) (cwd : path) (args : IArgs.t) (w : world)
    (n : string) :
  head (IArgs.positional args) = Some n → plainName n →
  ∃ s,
    prepare e cwd args w = (Return s, (detectUserRegistry e w).2) ∧
    target s = cwd ++ [n] ∧
    strictAncestor cwd (target s) ∧
    ∀ fs dir,
      detectMonorepoRoot fs (target s) = Some dir ↔
      NearestManifestDir fs cwd dir ∧ hasWorkspaceMarker fs dir.
Proof.
  intros Hname Hplain.
  destruct (prepare_run e cwd args w) as (s & Hprepare & _ & _ & Htarget & _).
  exists s. split; [done|]. rewrite Hname in Htarget.
  assert (Js.truthy n = true) as Htruthy by (destruct Hplain as [? _]; by destruct n).
  rewrite Htruthy, join_plain in Htarget by done. rewrite Htarget.
  split_and!; [done| |].
  - split; [by apply prefix_app_r|].
    intros Heq. apply (f_equal length) in Heq. rewrite length_app in Heq.
    cbn in Heq. lia.
  - intros fs dir. by rewrite detectMonorepoRoot_Some, dirname_snoc.
Qed.

(** Without a name the target is the working directory itself, and the
    workspace probe starts at its parent: a manifest and a workspace marker
    in the working directory are not seen. *)
Theorem target_without_name (e : env) (cwd : path) (args : IArgs.t) (w : world) :
  head (IArgs.positional args) = None ∨ head (IArgs.positional args) = Some "" →
  ∃ s,
    prepare e cwd args w = (Return s, (detectUserRegistry e w).2) ∧
    target s = cwd ∧
    ∀ fs,
      (∀ d, d `prefix_of` Path.dirname cwd → ¬ manifestAt fs d) →
      detectMonorepoRoot fs (target s) = None.
Proof.
  intros Hname.
  destruct (prepare_run e cwd args w) as (s & Hprepare & _ & _ & Htarget & _).
  exists s. split; [done|].
  assert (target s = cwd) as -> by by destruct Hname as [Hn|Hn]; rewrite Hn in Htarget.
  split; [done|]. intros fs Hnone. by apply detectMonorepoRoot_no_manifest.
Qed.

(** [create-umi b] in [/a/pkg]. *)
Lemma target_of_plain_name_example :
  ∃ s, prepare (exampleEnv None) ["a"; "pkg"] plainArgs emptyWorld
       = (Return s, (detectUserRegistry (exampleEnv None) emptyWorld).2) ∧
       target s = ["a"; "pkg"; "b"].
Proof.
  destruct (target_of_plain_name (exampleEnv None) ["a"; "pkg"] plainArgs emptyWorld "b")
    as (s & Hprepare & Htarget & _).
  - reflexivity.
  - split_and!; [done..|]. intros (before & after & Hb).
    destruct before as [|? [|? ?]]; discriminate Hb.
  - by exists s.
Defined.

(** [create-umi --default] in the root [/a] of the example workspace: the
    workspace is not seen. *)
Lemma target_without_name_example :
  ∃ s, prepare (exampleEnv None) ["a"] defaultArgs emptyWorld
       = (Return s, (detectUserRegistry (exampleEnv None) emptyWorld).2) ∧
       target s = ["a"] ∧
       detectMonorepoRoot exampleWorkspace (target s) = None.
Proof.
  destruct (target_without_name (exampleEnv None) ["a"] defaultArgs emptyWorld)
    as (s & Hprepare & Htarget & Hprobe).
  - by left.
  - exists s. split_and!; [done..|]. apply Hprobe.
    intros d Hd. apply prefix_nil_inv in Hd as ->. by intros [? ?].
Defined.

(** ** Failing collaborators *)

(** When the generator of the internal templates fails, the run ends with
    its error right after the call: no step on the tree has run, nothing is
    installed. *)
Theorem generator_failure_aborts (e : env) (cwd : path) (args : IArgs.t)
    (defaultData : option IDefaultData.t) (w w1 w2 : world) (s : setup) (c : choices)
    (major : option Js.number) :
  let dd := default (DEFAULT_DATA e) defaultData in
  let data := templateData e args dd s c (detectMonorepoRoot (files w1) (target s)) major in
  collect e cwd args dd w = (Return (s, c), w1) →
  useExternalTemplate s = false →
  pnpmMajorVersion e c w1 = (Return major, w2) →
  generate e (appTemplate c) (target s) data (files w2) = None →
  main e cwd args defaultData w
  = (Throw (CollaboratorError "BaseGenerator"),
     {| files := files w2;
        trace := trace w2 ++ [Generate (appTemplate c) (target s) data] |}).
Proof.
  intros dd data Hcollect Hinternal Hmajor Hfail. unfold main. fold dd.
  rewrite (bind_run_Return _ _ _ _ _ Hcollect). cbn [fst snd].
  rewrite provision_afterProbe. erewrite bind_run_Return by reflexivity.
  rewrite (bind_run_Return _ _ _ _ _ Hmajor). unfold afterProbe.
  apply bind_run_Throw. rewrite Hinternal. cbn [negb].
  unfold injectInternalTemplateFiles, collaborator. fold data. by rewrite Hfail.
Qed.

(** When the unpacking of an external template fails, the run ends with
    its error right after the call, before the probe of pnpm. *)
Theorem unpack_failure_aborts (e : env) (cwd : path) (args : IArgs.t)
    (defaultData : option IDefaultData.t) (w w1 : world) (s : setup)
    (t : string) (client : ENpmClient.t) (reg : registry) :
  prepare e cwd args w = (Return s, w1) →
  IArgs.template args = Some t → t ≠ "" →
  answer_npmClient e = Some client →
  answer_registry e (registryOptions (customRegistry s)) = Some reg →
  unpack e t (target s) reg (files w1) = None →
  main e cwd args defaultData w
  = (Throw (CollaboratorError "unpackTemplate"),
     {| files := files w1; trace := trace w1 ++ [UnpackTemplate t (target s) reg] |}).
Proof.
  intros Hprepare Ht Hne Hclient Hreg Hfail. unfold main, collect.
  assert (useExternalTemplate s = true) as Hext.
  { assert (returns (prepare e cwd args) s) as Hs by by exists w, w1.
    apply prepare_returns in Hs as [_ ->]. rewrite Ht. by destruct t. }
  apply bind_run_Throw. rewrite (bind_run_Return _ _ _ _ _ Hprepare).
  apply bind_run_Throw. unfold choose. rewrite Hext.
  unfold selectNpmClient, selectRegistry, select, unpackTemplate, collaborator,
    bind, ret.
  rewrite Hclient. cbn [chosenRegistry]. rewrite Hreg. cbn [chosenRegistry].
  rewrite Ht. cbn [default from_option id]. by rewrite Hfail.
Qed.

(** ** The further properties on example runs *)

Ltac in_trace := apply list_elem_of_In; vm_compute; auto 10.

(** [create-umi b] in [/a] with pnpm 8: the installation is [pnpm up -L]. *)
Lemma install_command_example :
  let e := exampleEnv (Some "8.6.0") in
  let ev := Spawn "pnpm" ["up"; "-L"] (Some ["a"; "b"]) in
  ev ∈ emitted (main e ["a"] plainArgs None) emptyWorld ∧
  isInstall ev ∧
  ∃ s c w1,
    collect e ["a"] plainArgs (DEFAULT_DATA e) emptyWorld = (Return (s, c), w1) ∧
    ((detectedPnpm8 e c w1 ∧ ev = Spawn "pnpm" ["up"; "-L"] (Some (target s))) ∨
     (¬ detectedPnpm8 e c w1 ∧ ev = InstallWithNpmClient (npmClient c) (target s))).
Proof.
  cbv zeta.
  assert (Hin : Spawn "pnpm" ["up"; "-L"] (Some ["a"; "b"])
                ∈ emitted (main (exampleEnv (Some "8.6.0")) ["a"] plainArgs None) emptyWorld)
    by in_trace.
  assert (Hinstall : isInstall (Spawn "pnpm" ["up"; "-L"] (Some ["a"; "b"]))) by done.
  split_and!; [done..|].
  exact (install_command _ _ _ _ _ _ Hin Hinstall).
Defined.

(** [create-umi --default] in [/a] with pnpm 8: the advisory is written. *)
Lemma pnpm8_advisory_example :
  let e := exampleEnv (Some "8.6.0") in
  let message :=
    "You current using pnpm v8, it will install minimal version of dependencies" in
  Log warn message ∈ emitted (main e ["a"] defaultArgs None) emptyWorld ∧
  (IArgs.default defaultArgs = Some true ∨ IArgs.install defaultArgs = Some false).
Proof.
  cbv zeta.
  match goal with |- ?Hyp ∧ _ => assert (Hin : Hyp) by in_trace end.
  split; [done|]. by destruct (pnpm8_advisory _ _ _ _ _ _ Hin) as [Hskip _].
Defined.

(** [create-umi b] in [/a]: git is initialized in [/a/b]. *)
Lemma git_init_in_project_root_example :
  let ev := Spawn "git" ["init"] (Some ["a"; "b"]) in
  ev ∈ emitted (main (exampleEnv (Some "9.1.0")) ["a"] plainArgs None) emptyWorld ∧
  IArgs.git plainArgs ≠ Some false.
Proof.
  cbv zeta.
  match goal with |- ?Hyp ∧ _ => assert (Hin : Hyp) by in_trace end.
  split; [done|].
  destruct (git_init_in_project_root _ _ _ _ _ _ Hin) as [Hgit _].
  by destruct (Hgit _ _ eq_refl) as (_ & Hflag & _).
Defined.

(** [create-umi b] with the prompt for the package manager cancelled. *)
Lemma exit_only_on_cancel_example :
  let result := main cancellingEnv ["a"] plainArgs None emptyWorld in
  result.1 = Exit 1 ∧ result.2 = (detectUserRegistry cancellingEnv emptyWorld).2.
Proof.
  cbv zeta.
  assert (Hrun : main cancellingEnv ["a"] plainArgs None emptyWorld
                 = (Exit 1, {| files := ∅;
                               trace := [Spawn "npm" ["config"; "get"; "registry"] None] |}))
    by by vm_compute.
  destruct (exit_only_on_cancel _ _ _ _ _ _ _ Hrun) as (_ & Hworld & _).
  rewrite Hrun. by split.
Defined.

(** [create-umi b] in [/a] with a generator that fails. *)
Lemma generator_failure_aborts_example :
  (main brokenEnv ["a"] plainArgs None emptyWorld).1
  = Throw (CollaboratorError "BaseGenerator").
Proof.
  rewrite (generator_failure_aborts brokenEnv ["a"] plainArgs None emptyWorld
             {| files := ∅; trace := [Spawn "npm" ["config"; "get"; "registry"] None] |}
             {| files := ∅;
                trace := [Spawn "npm" ["config"; "get"; "registry"] None;
                          Spawn "pnpm" ["--version"] None] |}
             {| name := Some "b"; author := "umi <umi@example.com>";
                email := "umi@example.com"; target := ["a"; "b"];
                customRegistry := None; useDefaultData := false;
                useExternalTemplate := false |}
             {| appTemplate := ETemplate.app; npmClient := ENpmClient.pnpm;
                chosenRegistry := ERegistry_npm; pluginName := "umi-plugin-b" |}
             (Some (Js.Num 9))); reflexivity.
Defined.

(** [create-umi b --template some-template] in [/a] with an unpacking that
    fails. *)
Lemma unpack_failure_aborts_example :
  (main brokenEnv ["a"] templateArgs None emptyWorld).1
  = Throw (CollaboratorError "unpackTemplate").
Proof.
  rewrite (unpack_failure_aborts brokenEnv ["a"] templateArgs None emptyWorld
             {| files := ∅; trace := [Spawn "npm" ["config"; "get"; "registry"] None] |}
             {| name := Some "b"; author := "umi <umi@example.com>";
                email := "umi@example.com"; target := ["a"; "b"];
                customRegistry := None; useDefaultData := false;
                useExternalTemplate := true |}
             "some-template" ENpmClient.pnpm ERegistry_npm); done.
Defined.

(** ** Which step can end a run *)

Section StepFailures.

Context (e : env) (args : IArgs.t) (ctx : IContext.t).

Local Abbreviation huskyDir := (IContext.target ctx ++ [".husky"]).
Local Abbreviation localNpmrc := (IContext.target ctx ++ [".npmrc"]).
Local Abbreviation rootNpmrc := (IContext.projectRoot ctx ++ [".npmrc"]).

Lemma removeHusky_outcome (w w' : world) (out : outcome ()) :
  removeHusky e ctx w = (out, w') →
  trace w' = trace w ∧
  match out with
  | Return _ => True
  | Throw err =>
      is_Some (files w !! huskyDir) ∧
      is_Some (remove_refused e huskyDir (files w)) ∧
      ∃ code, err = FsError code huskyDir
  | Exit _ => False
  end.
Proof.
  unfold removeHusky, bind, existsSync, remove, skip, ret.
  change (Path.join (IContext.target ctx) "./.husky") with huskyDir.
  destruct (present (files w) huskyDir) eqn:Hpresent; [|by intros [= <- <-]].
  apply present_snoc in Hpresent.
  destruct (remove_refused e huskyDir (files w)) as [[code gone]|];
    intros [= <- <-]; cbn [trace]; split; by eauto.
Qed.

Lemma moveNpmrc_outcome (w w' : world) (out : outcome ()) :
  moveNpmrc e ctx w = (out, w') →
  trace w' = trace w ∧
  match out with
  | Return _ => True
  | Throw err => ∃ code p, err = FsError code p ∧ (p = localNpmrc ∨ p = rootNpmrc)
  | Exit _ => False
  end.
Proof.
  unfold moveNpmrc, bind, existsSync, copyFile, remove, skip, ret.
  change (Path.join (IContext.projectRoot ctx) "./.npmrc") with rootNpmrc.
  change (Path.join (IContext.target ctx) "./.npmrc") with localNpmrc.
  repeat case_match; intros [= <- <-]; simplify_eq; cbn; split; by eauto 6.
Qed.

End StepFailures.

(** The steps on the generated tree end a run only with an error of the
    file system, and before git is touched: the error of a refused removal
    of [.husky], when the hooks are not kept and the target has a [.husky],
    or an error of the relocation of the config file, in a workspace.  A
    failing [git init] never ends them, and they never end the process.
    Outside a workspace and on a file system that refuses nothing they
    always return. *)
Theorem steps_fail_only_on_files (e : env) (args : IArgs.t) (ctx : IContext.t)
    (husky : bool) (w : world) :
  let huskyDir := IContext.target ctx ++ [".husky"] in
  let localNpmrc := IContext.target ctx ++ [".npmrc"] in
  let rootNpmrc := IContext.projectRoot ctx ++ [".npmrc"] in
  (∀ err w', reconcile e args ctx husky w = (Throw err, w') →
     trace w' = trace w ∧
     ((husky = false ∧ is_Some (files w !! huskyDir) ∧
       is_Some (remove_refused e huskyDir (files w)) ∧
       ∃ code, err = FsError code huskyDir) ∨
      (IContext.inMonorepo ctx = true ∧
       ∃ code p, err = FsError code p ∧ (p = localNpmrc ∨ p = rootNpmrc)))) ∧
  (∀ code w', reconcile e args ctx husky w ≠ (Exit code, w')) ∧
  ((∀ p fs, remove_refused e p fs = None) → IContext.inMonorepo ctx = false →
   ∃ w', reconcile e args ctx husky w = (Return (), w')).
Proof.
  cbv zeta.
  assert (Hlast : ∀ w2, ∃ w3,
            (if shouldInitGit args then initGit e ctx else logger info "Skip Git init") w2
            = (Return (), w3)).
  { intros w2. destruct (shouldInitGit args); [apply initGit_returns|by eexists]. }
  unfold reconcile.
  destruct ((if negb husky then removeHusky e ctx else skip) w) as [[[]|err1|code1] w1]
    eqn:Hhusky.
  - assert (Htrace1 : trace w1 = trace w).
    { destruct husky; cbn [negb] in Hhusky; [by injection Hhusky as <-|].
      by apply removeHusky_outcome in Hhusky as [? _]. }
    rewrite (bind_run_Return _ _ _ _ _ Hhusky).
    destruct (IContext.inMonorepo ctx) eqn:Hmono.
    + destruct (moveNpmrc e ctx w1) as [[[]|err|code] w2] eqn:Hmove;
        pose proof (moveNpmrc_outcome e ctx _ _ _ Hmove) as [Htrace2 Hout].
      * rewrite (bind_run_Return _ _ _ _ _ Hmove). destruct (Hlast w2) as [w3 Hw3].
        rewrite Hw3. by split_and!.
      * rewrite (bind_run_Throw _ _ _ _ _ Hmove). split_and!; [|done..].
        intros err' w' [= <- <-]. split; [congruence|]. by right.
      * done.
    + erewrite bind_run_Return by reflexivity. destruct (Hlast w1) as [w3 Hw3].
      rewrite Hw3. split_and!; [done..|]. by eexists.
  - destruct husky; cbn [negb] in Hhusky; [done|].
    pose proof (removeHusky_outcome e ctx _ _ _ Hhusky) as (Htrace1 & Hthere & Hrefused & Herr).
    rewrite (bind_run_Throw _ _ _ _ _ Hhusky). split_and!; [|done|].
    + intros err' w' [= <- <-]. split; [done|]. by left.
    + intros Hallowed _. rewrite Hallowed in Hrefused. by destruct Hrefused.
  - destruct husky; cbn [negb] in Hhusky; [done|].
    by apply removeHusky_outcome in Hhusky as [_ ?].
Qed.

(** ** The answers a run uses *)

(** Without a template and without the use-defaults flag, a run that gets
    past the prompts uses the answers as they were given: the template, the
    package manager and the registry (picked among the options offered),
    and, for the plugin template only, the plugin name, asked with the
    initial name as the placeholder; for the other templates the plugin
    name stays [umi-plugin-] followed by the project name or [demo]. *)
Theorem prompted_choices (e : env) (cwd : path) (args : IArgs.t)
    (defaultData : IDefaultData.t) (w w1 : world) (s : setup) (c : choices) :
  collect e cwd args defaultData w = (Return (s, c), w1) →
  useExternalTemplate s = false → useDefaultData s = false →
  let initial := pluginName (initialChoices s defaultData) in
  answer_appTemplate e = Some (appTemplate c) ∧
  answer_npmClient e = Some (npmClient c) ∧
  answer_registry e (registryOptions (customRegistry s)) = Some (chosenRegistry c) ∧
  (if decide (appTemplate c = ETemplate.plugin)
   then answer_pluginName e initial = Some (pluginName c)
   else pluginName c = initial) ∧
  initial = "umi-plugin-" +:+ match name s with
                              | Some n => if Js.truthy n then n else "demo"
                              | None => "demo"
                              end.
Proof.
  intros Hcollect Hext Hdef. cbv zeta. split_and!; [..|reflexivity].
  all: unfold collect in Hcollect;
    apply bind_Return in Hcollect as (s' & w0 & Hprepare & Hcollect);
    apply bind_Return in Hcollect as (c' & w2 & Hchoose & Hret);
    unfold ret in Hret; simplify_eq; revert Hchoose;
    unfold choose; rewrite Hext, Hdef; cbn [negb];
    destruct (initialChoices s defaultData) as [t0 n0 r0 p0];
    unfold internalTemplatePrompts, selectAppTemplate, selectNpmClient, selectRegistry,
      select, bind, ret, process_exit;
    cbn [appTemplate npmClient chosenRegistry pluginName];
    repeat case_match; intros [= <- <-]; simplify_eq;
    cbn [appTemplate npmClient chosenRegistry pluginName] in *;
    try done; by case_decide.
Qed.

(** [create-umi b] in [/a], answered with the app template, pnpm and npm. *)
Lemma prompted_choices_example :
  let e := exampleEnv (Some "9.1.0") in
  ∃ s c w1,
    collect e ["a"] plainArgs (DEFAULT_DATA e) emptyWorld = (Return (s, c), w1) ∧
    answer_npmClient e = Some (npmClient c) ∧
    pluginName c = "umi-plugin-b".
Proof.
  cbv zeta.
  set (s := {| name := Some "b"; author := "umi <umi@example.com>";
               email := "umi@example.com"; target := ["a"; "b"];
               customRegistry := None; useDefaultData := false;
               useExternalTemplate := false |}).
  set (c := {| appTemplate := ETemplate.app; npmClient := ENpmClient.pnpm;
               chosenRegistry := ERegistry_npm; pluginName := "umi-plugin-b" |}).
  set (w1 := {| files := ∅; trace := [Spawn "npm" ["config"; "get"; "registry"] None] |}).
  assert (Hcollect : collect (exampleEnv (Some "9.1.0")) ["a"] plainArgs
                       (DEFAULT_DATA (exampleEnv (Some "9.1.0"))) emptyWorld
                     = (Return (s, c), w1)) by reflexivity.
  destruct (prompted_choices _ _ _ _ _ _ _ _ Hcollect eq_refl eq_refl)
    as (_ & Hclient & _ & Hname & _).
  exists s, c, w1. by split_and!.
Defined.
